(** * MedBridge network optimisation engine: a shallow embedding

    This development embeds [src/lib/optimizer/networkOptimizer.ts] and
    states the properties of its specification as theorems.

    Conventions of the embedding.
    - A JavaScript [number] is a value of [num]: an exact rational, or
      one of [NaN], [+Infinity], [-Infinity].  Arithmetic follows the
      IEEE rules for the special values (0/0 is [NaN], x/0 is infinite,
      any comparison with [NaN] is false); finite results are exact, so
      binary64 rounding error and the sign of zero are outside the model.
    - [Math.sin], [Math.cos], [Math.atan2], [Math.sqrt], [Math.exp] and
      the conversion of a number to a string are left to the host by
      ECMAScript; the engine is parameterised by a [Host] record.
    - [Map<string, _>] and [Set<string>] are [gmap] and [gset]; the one
      map whose iteration order is observed is an association list.
    - Arrays that are mutated in place are lists updated by index.
    - Strings are sequences of 8-bit characters; [toLowerCase] and
      [trim] act on the ASCII letters and the ASCII white space. *)

From Stdlib Require Import ZArith QArith Qround Qabs Lqa Lia Ascii.
From stdpp Require Import gmap strings list fin_maps sorting pretty.

(* stdpp's solvers clear hypotheses by name *)
Set Warnings "-clear-no-such-hyp".

(* ================================================================== *)
(** ** JavaScript numbers *)
(* ================================================================== *)

Inductive num : Type :=
| NaN
| NInf
| Fin (q : Q)
| PInf.

#[global] Instance Q_eq_dec : EqDecision Q.
Proof. solve_decision. Defined.

#[global] Instance num_eq_dec : EqDecision num.
Proof. solve_decision. Defined.

#[global] Instance num_inhabited : Inhabited num := populate NaN.

Definition of_Z (z : Z) : num := Fin (inject_Z z).
Definition of_nat (n : nat) : num := of_Z (Z.of_nat n).

(** Sign of a number: [1], [0] or [-1]; [NaN] is never asked. *)
Definition sgn (x : num) : Z :=
  match x with
  | NaN => 0%Z
  | NInf => (-1)%Z
  | Fin q => Z.sgn (Qnum q)
  | PInf => 1%Z
  end.

Definition inf_of_sign (s : Z) : num :=
  match s with
  | Z0 => NaN
  | Zpos _ => PInf
  | Zneg _ => NInf
  end.

Definition nneg (x : num) : num :=
  match x with
  | NaN => NaN
  | NInf => PInf
  | Fin q => Fin (Qred (- q)%Q)
  | PInf => NInf
  end.

Definition nadd (x y : num) : num :=
  match x, y with
  | NaN, _ | _, NaN => NaN
  | PInf, NInf | NInf, PInf => NaN
  | PInf, _ | _, PInf => PInf
  | NInf, _ | _, NInf => NInf
  | Fin a, Fin b => Fin (Qred (a + b)%Q)
  end.

Definition nsub (x y : num) : num := nadd x (nneg y).

Definition nmul (x y : num) : num :=
  match x, y with
  | NaN, _ | _, NaN => NaN
  | Fin a, Fin b => Fin (Qred (a * b)%Q)
  | _, _ => inf_of_sign (sgn x * sgn y)%Z
  end.

Definition ndiv (x y : num) : num :=
  match x, y with
  | NaN, _ | _, NaN => NaN
  | Fin a, Fin b =>
      if Qeq_bool b 0%Q then inf_of_sign (sgn x) else Fin (Qred (a / b)%Q)
  | Fin _, _ => Fin 0
  | _, Fin b => if Qeq_bool b 0%Q then x else inf_of_sign (sgn x * sgn y)%Z
  | _, _ => NaN
  end.

Definition Qlt_bool (a b : Q) : bool := negb (Qle_bool b a).

(** [x < y], [x <= y], [x > y], [x >= y], [x === y]. *)
Definition nltb (x y : num) : bool :=
  match x, y with
  | NaN, _ | _, NaN => false
  | NInf, NInf => false
  | NInf, _ => true
  | _, NInf => false
  | PInf, _ => false
  | Fin _, PInf => true
  | Fin a, Fin b => Qlt_bool a b
  end.

Definition nleb (x y : num) : bool :=
  match x, y with
  | NaN, _ | _, NaN => false
  | NInf, _ => true
  | _, PInf => true
  | PInf, _ => false
  | _, NInf => false
  | Fin a, Fin b => Qle_bool a b
  end.

Definition ngtb (x y : num) : bool := nltb y x.
Definition ngeb (x y : num) : bool := nleb y x.

Definition neqb (x y : num) : bool :=
  match x, y with
  | NInf, NInf | PInf, PInf => true
  | Fin a, Fin b => Qeq_bool a b
  | _, _ => false
  end.

Declare Scope num_scope.
Delimit Scope num_scope with num.
Bind Scope num_scope with num.
Infix "+" := nadd : num_scope.
Infix "-" := nsub : num_scope.
Infix "*" := nmul : num_scope.
Infix "/" := ndiv : num_scope.
Infix "<?" := nltb : num_scope.
Infix "<=?" := nleb : num_scope.
Infix ">?" := ngtb : num_scope.
Infix ">=?" := ngeb : num_scope.
Infix "===" := neqb (at level 70) : num_scope.

(** [Number.isFinite]. *)
Definition isFinite (x : num) : bool :=
  match x with Fin _ => true | _ => false end.

(** Truthiness of a number, as [||] and [if] see it. *)
Definition truthy (x : num) : bool :=
  match x with
  | NaN => false
  | Fin q => negb (Qeq_bool q 0%Q)
  | _ => true
  end.

(** [x || d] on numbers. *)
Definition nor (x d : num) : num := if truthy x then x else d.

(** [Math.min] and [Math.max] of two arguments. *)
Definition Math_min (x y : num) : num :=
  match x, y with
  | NaN, _ | _, NaN => NaN
  | _, _ => if nltb y x then y else x
  end.

Definition Math_max (x y : num) : num :=
  match x, y with
  | NaN, _ | _, NaN => NaN
  | _, _ => if nltb x y then y else x
  end.

(** [Math.floor], [Math.round] (ties go up) and [Math.abs]. *)
Definition Math_floor (x : num) : num :=
  match x with
  | Fin q => of_Z (Qfloor q)
  | _ => x
  end.

Definition Math_round (x : num) : num :=
  match x with
  | Fin q => of_Z (Qfloor (q + (1 # 2))%Q)
  | _ => x
  end.

Definition Math_abs (x : num) : num :=
  match x with
  | NaN => NaN
  | Fin q => Fin (Qred (Qabs q))
  | _ => PInf
  end.

(** An array index from a number: [a[x]] for an integral, in-range [x]. *)
Definition index_of (x : num) : option nat :=
  match x with
  | Fin q =>
      if Qeq_bool q (inject_Z (Qfloor q)) && (0 <=? Qfloor q)%Z
      then Some (Z.to_nat (Qfloor q)) else None
  | _ => None
  end.

(* ================================================================== *)
(** ** The host: what ECMAScript leaves to the implementation *)
(* ================================================================== *)

Record Host : Type := {
  Math_sin : num -> num;
  Math_cos : num -> num;
  Math_atan2 : num -> num -> num;
  Math_sqrt : num -> num;
  Math_exp : num -> num;
  (** [String(x)] / template-literal conversion of a number *)
  Number_toString : num -> string;
}.

(** What the theorems below use of the host: ECMAScript fixes these
    cases of the otherwise implementation-approximated functions. *)
Class HostSpec (H : Host) : Prop := {
  (** the result of [Math.atan2] is [NaN] or lies in [-pi, pi] *)
  atan2_not_infinite : forall y x, Math_atan2 H y x <> PInf /\ Math_atan2 H y x <> NInf;
  (** [Math.sqrt(NaN)] is [NaN] *)
  sqrt_NaN : Math_sqrt H NaN = NaN;
}.

Open Scope num_scope.

(* ================================================================== *)
(** ** Strings and arrays *)
(* ================================================================== *)

(** [String.prototype.toLowerCase], on the ASCII letters. *)
Definition lower_ascii (c : ascii) : ascii :=
  let n := nat_of_ascii c in
  if ((65 <=? n) && (n <=? 90))%nat then ascii_of_nat (n + 32) else c.

Fixpoint toLowerCase (s : string) : string :=
  match s with
  | EmptyString => EmptyString
  | String c s' => String (lower_ascii c) (toLowerCase s')
  end.

(** [hay.includes(needle)]. *)
Fixpoint includes (hay needle : string) : bool :=
  String.prefix needle hay ||
  match hay with
  | EmptyString => false
  | String _ hay' => includes hay' needle
  end.

(** [String.prototype.trim], on the ASCII white space. *)
Definition is_space (c : ascii) : bool :=
  let n := nat_of_ascii c in
  ((9 <=? n) && (n <=? 13) || (n =? 32))%nat.

Fixpoint trimStart (s : string) : string :=
  match s with
  | String c s' => if is_space c then trimStart s' else s
  | EmptyString => EmptyString
  end.

Fixpoint trimEnd (s : string) : string :=
  match s with
  | EmptyString => EmptyString
  | String c s' =>
      match trimEnd s' with
      | EmptyString => if is_space c then EmptyString else String c EmptyString
      | t => String c t
      end
  end.

Definition trim (s : string) : string := trimEnd (trimStart s).

(** [s || d] on strings: the empty string is falsy. *)
Definition sor (s d : string) : string :=
  if String.eqb s "" then d else s.

(** [Array.prototype.sort(cmp)].  The sort is stable, and for a
    consistent comparator every stable sort returns the same array:
    it is modelled as a stable insertion sort.  [cmp x y > 0] puts [y]
    before [x]; a zero or [NaN] result leaves the two in their order. *)
Section Array_sort.
Context {A : Type} (cmp : A -> A -> num).

Fixpoint sort_insert (x : A) (l : list A) : list A :=
  match l with
  | [] => [x]
  | y :: l' => if cmp x y >? Fin 0 then y :: sort_insert x l' else x :: l
  end.

Definition Array_sort (l : list A) : list A := foldr sort_insert [] l.
End Array_sort.

(** [a.reduce((s, x) => s + x, 0)]. *)
Definition sum_list (l : list num) : num := foldl nadd (Fin 0) l.

(** [Math.max(...a)] and [Math.min(...a)]. *)
Definition Math_max_list (l : list num) : num := foldl Math_max NInf l.
Definition Math_min_list (l : list num) : num := foldl Math_min PInf l.

(* ================================================================== *)
(** ** Data model *)
(* ================================================================== *)

Record Coordinates : Type := { lat : num; lng : num }.

Record Address : Type := { stateOrRegion : option string }.

(** The fields of [CleanedFacility] that the engine reads. *)
Record CleanedFacility : Type := {
  f_id : string;
  f_name : string;
  f_validCoordinates : bool;
  f_coordinates : option Coordinates;
  f_address : option Address;
  f_capabilities : list string;
  f_dataQualityScore : option num;
}.

(** The fields of [RegionStats] that the engine reads. *)
Record RegionStats : Type := {
  rs_name : string;
  rs_totalFacilities : num;
}.

Record OptimizationNode : Type := {
  facilityId : string;
  name : string;
  node_lat : num;
  node_lng : num;
  region : string;
  capabilities : list string;
  qualityScore : num;
  responseTimeMinutes : num;
  nearestFacilityDistance : num;
  nearestFacilityName : string;
}.

Record NetworkEdge : Type := {
  from : string;
  to : string;
  fromName : string;
  toName : string;
  distance : num;
  travelTime : num;
  weight : num;
}.

Record FacilityDistance : Type := {
  fd_facilityId : string;
  fd_facilityName : string;
  fd_nearestFacilityId : string;
  fd_nearestFacilityName : string;
  distanceKm : num;
  travelTimeMinutes : num;
}.

Record CoverageGap : Type := {
  regionName : string;
  centroid : Coordinates;
  gap_nearestFacilityDistance : num;
  nearestFacilityTime : num;
  populationEstimate : num;
  urgencyScore : num;
  recommendedAction : string;
}.

Record OptimizationMetrics : Type := {
  averageResponseTime : num;
  medianResponseTime : num;
  p95ResponseTime : num;
  coveragePercentage : num;
  networkEfficiency : num;
  paretoScore : num;
  totalFacilities : nat;
  avgInterFacilityDistance : num;
  maxInterFacilityDistance : num;
  minInterFacilityDistance : num;
}.

Inductive SignificanceLevel : Type :=
  significant | marginal | not_significant.

Record StatisticalAnalysis : Type := {
  pValue : num;
  confidenceInterval : num * num;
  effectSize : num;
  sampleSize : nat;
  standardError : num;
  significanceLevel : SignificanceLevel;
}.

Record OptimalLocation : Type := {
  ol_name : string;
  ol_coordinates : Coordinates;
  currentCoverageRadius : num;
  populationServed : num;
  rank : nat;
  reason : string;
}.

Inductive FacilityKind : Type := hospital | clinic | health_center.
Inductive Severity : Type := critical | high | medium.

Record RecommendedFacility : Type := {
  suggestedLocation : Coordinates;
  facilityType : FacilityKind;
  priority : Severity;
  estimatedPopulationServed : num;
  nearestExistingFacility : string;
  distanceFromNearest : num;
  justification : string;
}.

Record PopulationCenter : Type := {
  pc_name : string;
  pc_coordinates : Coordinates;
  estimatedPopulation : num;
  pc_nearestFacilityDistance : num;
  pc_nearestFacilityName : string;
  accessTimeMinutes : num;
  meetsWHOStandard : bool;
}.

Record NetworkBottleneck : Type := {
  location : string;
  issue : string;
  severity : Severity;
  recommendation : string;
}.

Inductive Grade : Type := GradeA | GradeB | GradeC | GradeD | GradeF.

Record CriticalInsights : Type := {
  optimalHubLocations : list OptimalLocation;
  recommendedNewFacilities : list RecommendedFacility;
  underservedPopulationCenters : list PopulationCenter;
  networkBottlenecks : list NetworkBottleneck;
  whoComplianceScore : num;
  accessibilityGrade : Grade;
}.

Record OptimizationResult : Type := {
  nodes : list OptimizationNode;
  edges : list NetworkEdge;
  hubFacilities : list string;
  coverageGaps : list CoverageGap;
  metrics : OptimizationMetrics;
  statisticalAnalysis : StatisticalAnalysis;
  criticalInsights : CriticalInsights;
  facilityDistanceMatrix : list FacilityDistance;
}.

(* ================================================================== *)
(** ** Constants *)
(* ================================================================== *)

Definition WHO_ACCESS_THRESHOLD : num := Fin 90.
Definition MAX_EDGE_DISTANCE : num := Fin 300.
Definition MAX_DISPLAY_DISTANCE : num := Fin 2400.
Definition MAX_DISPLAY_TIME : num := Fin 2880.
Definition GRID_CELL_SIZE : num := Fin 0.5.

Definition TRAVEL_SPEEDS_urban : num := Fin 30.
Definition TRAVEL_SPEEDS_suburban : num := Fin 45.
Definition TRAVEL_SPEEDS_rural : num := Fin 60.

(* ================================================================== *)
(** ** Keys of the spatial grid and of the edge set *)
(* ================================================================== *)

(** A grid cell is named by the string [`${a},${b}`] of two floored
    numbers; two such strings are equal exactly when the two pairs are.
    An edge is named by [`${i}-${j}`] for two array indices. *)
Definition cell_key : Type := num * num.

Definition num_code (x : num) : () + () + (Z * positive) + () :=
  match x with
  | NaN => inl (inl (inl ()))
  | NInf => inl (inl (inr ()))
  | Fin q => inl (inr (Qnum q, Qden q))
  | PInf => inr ()
  end.

Definition num_decode (c : () + () + (Z * positive) + ()) : num :=
  match c with
  | inl (inl (inl _)) => NaN
  | inl (inl (inr _)) => NInf
  | inl (inr (n, d)) => Fin (n # d)
  | inr _ => PInf
  end.

#[global] Program Instance num_countable : Countable num :=
  inj_countable' num_code num_decode _.
Next Obligation. by intros [| |[??]|]. Qed.

(* ================================================================== *)
(** ** The engine *)
(* ================================================================== *)

Section Engine.
Variable H : Host.

(** *** Distances and times *)

Definition haversineDistance (lat1 lng1 lat2 lng2 : num) : num :=
  let R := Fin 6371 in
  let dLat := (lat2 - lat1) * Fin 0.017453292519943295 in
  let dLng := (lng2 - lng1) * Fin 0.017453292519943295 in
  let a :=
    Math_sin H (dLat * Fin 0.5) * Math_sin H (dLat * Fin 0.5) +
    Math_cos H (lat1 * Fin 0.017453292519943295) *
      Math_cos H (lat2 * Fin 0.017453292519943295) *
      Math_sin H (dLng * Fin 0.5) * Math_sin H (dLng * Fin 0.5) in
  R * Fin 2 * Math_atan2 H (Math_sqrt H a) (Math_sqrt H (Fin 1 - a)).

Definition formatDistance (distanceKm : num) : num :=
  if negb (isFinite distanceKm) || (distanceKm >? MAX_DISPLAY_DISTANCE)
  then MAX_DISPLAY_DISTANCE
  else Math_round (distanceKm * Fin 10) / Fin 10.

Definition estimateTravelTime (distanceKm : num) (isUrban : bool) : num :=
  if negb (isFinite distanceKm) then MAX_DISPLAY_TIME else
  let cappedDistance := Math_min distanceKm MAX_DISPLAY_DISTANCE in
  let speed := if isUrban then TRAVEL_SPEEDS_urban else TRAVEL_SPEEDS_rural in
  Math_min (Math_round ((cappedDistance / speed) * Fin 60 * Fin 10) / Fin 10)
           MAX_DISPLAY_TIME.

(** *** SpatialGrid *)

Definition getCellKey (lat lng : num) : cell_key :=
  (Math_floor (lat / GRID_CELL_SIZE), Math_floor (lng / GRID_CELL_SIZE)).

(** The constructor: node [i] is pushed on the cell of its key. *)
Definition grid_add (grid : gmap cell_key (list nat))
    (i : nat) (node : OptimizationNode) : gmap cell_key (list nat) :=
  let key := getCellKey (node_lat node) (node_lng node) in
  let cell := default [] (grid !! key) in
  <[key := cell ++ [i]]> grid.

Definition SpatialGrid (nodes : list OptimizationNode)
    : gmap cell_key (list nat) :=
  foldl (fun grid '(i, node) => grid_add grid i node) ∅ (imap pair nodes).

(** The integers [lo, lo+1, ..., lo+len-1]. *)
Definition Zrange (lo : Z) (len : nat) : list Z :=
  (fun k => (lo + Z.of_nat k)%Z) <$> seq 0 len.

Definition getNearbyIndices (grid : gmap cell_key (list nat))
    (lat lng : num) (radiusCells : nat) : list nat :=
  let centerCellLat := Math_floor (lat / GRID_CELL_SIZE) in
  let centerCellLng := Math_floor (lng / GRID_CELL_SIZE) in
  let offsets := Zrange (- Z.of_nat radiusCells) (2 * radiusCells + 1) in
  dLat ← offsets;
  dLng ← offsets;
  default [] (grid !! (centerCellLat + of_Z dLat, centerCellLng + of_Z dLng)).

(** *** buildNetworkGraph *)

Definition makeNode (facility : CleanedFacility) : option OptimizationNode :=
  if negb (f_validCoordinates facility) then None else
  match f_coordinates facility with
  | None => None
  | Some c =>
      Some {| facilityId := f_id facility;
              name := f_name facility;
              node_lat := lat c;
              node_lng := lng c;
              region := sor (default "" (f_address facility ≫= stateOrRegion))
                            "Unknown";
              capabilities := f_capabilities facility;
              qualityScore := default (Fin 50) (f_dataQualityScore facility);
              responseTimeMinutes := Fin 0;
              nearestFacilityDistance := PInf;
              nearestFacilityName := "None" |}
  end.

(** The locals of one iteration of the outer loop, with the
    accumulators [edges] and [edgeSet] that the inner loop extends. *)
Record Scan : Type := {
  minDistance : num;
  nearestName : string;
  nearestId : string;
  scan_edges : list NetworkEdge;
  edgeSet : gset (nat * nat);
}.

Definition track_nearest (s : Scan) (dist : num) (other : OptimizationNode)
    : Scan :=
  if dist <? minDistance s
  then {| minDistance := dist;
          nearestName := name other;
          nearestId := facilityId other;
          scan_edges := scan_edges s;
          edgeSet := edgeSet s |}
  else s.

Definition make_edge (node other : OptimizationNode) (dist : num)
    : NetworkEdge :=
  let travelTime := estimateTravelTime dist (dist <? Fin 20) in
  let qualityBonus := (qualityScore other - qualityScore node) / Fin 100 in
  {| from := facilityId node;
     to := facilityId other;
     fromName := name node;
     toName := name other;
     distance := formatDistance dist;
     travelTime := travelTime;
     weight := travelTime * (Fin 1 - qualityBonus * Fin 0.2) |}.

Definition add_edge (i j : nat) (node other : OptimizationNode)
    (dist : num) (s : Scan) : Scan :=
  if dist <=? MAX_EDGE_DISTANCE then
    let edgeKey := if (i <? j)%nat then (i, j) else (j, i) in
    if bool_decide (edgeKey ∈ edgeSet s) then s
    else {| minDistance := minDistance s;
            nearestName := nearestName s;
            nearestId := nearestId s;
            scan_edges := scan_edges s ++ [make_edge node other dist];
            edgeSet := {[edgeKey]} ∪ edgeSet s |}
  else s.

(** The body of [for (const j of nearbyIndices)]. *)
Definition scan_nearby (nodes : list OptimizationNode) (i : nat)
    (node : OptimizationNode) (s : Scan) (j : nat) : Scan :=
  if (i =? j)%nat then s else
  match nodes !! j with
  | None => s
  | Some other =>
      let dist := haversineDistance (node_lat node) (node_lng node)
                                    (node_lat other) (node_lng other) in
      add_edge i j node other dist (track_nearest s dist other)
  end.

(** The body of the exhaustive scan. *)
Definition scan_all (nodes : list OptimizationNode) (i : nat)
    (node : OptimizationNode) (s : Scan) (j : nat) : Scan :=
  if (i =? j)%nat then s else
  match nodes !! j with
  | None => s
  | Some other =>
      let dist := haversineDistance (node_lat node) (node_lng node)
                                    (node_lat other) (node_lng other) in
      track_nearest s dist other
  end.

Definition set_nearest (node : OptimizationNode) (d : num) (nm : string)
    : OptimizationNode :=
  {| facilityId := facilityId node;
     name := name node;
     node_lat := node_lat node;
     node_lng := node_lng node;
     region := region node;
     capabilities := capabilities node;
     qualityScore := qualityScore node;
     responseTimeMinutes := responseTimeMinutes node;
     nearestFacilityDistance := d;
     nearestFacilityName := nm |}.

Record Graph : Type := {
  g_nodes : list OptimizationNode;
  g_edges : list NetworkEdge;
  g_distanceMatrix : list FacilityDistance;
  g_edgeSet : gset (nat * nat);
}.

(** One iteration of [for (let i = 0; i < nodes.length; i++)]. *)
Definition process_node (grid : gmap cell_key (list nat))
    (g : Graph) (i : nat) : Graph :=
  match g_nodes g !! i with
  | None => g
  | Some node =>
      let nearbyIndices :=
        getNearbyIndices grid (node_lat node) (node_lng node) 4 in
      let s0 := {| minDistance := PInf; nearestName := "None";
                   nearestId := ""; scan_edges := g_edges g;
                   edgeSet := g_edgeSet g |} in
      let s1 := foldl (scan_nearby (g_nodes g) i node) s0 nearbyIndices in
      let s2 :=
        if (minDistance s1 === PInf) && (1 <? length (g_nodes g))%nat
        then foldl (scan_all (g_nodes g) i node) s1
                   (seq 0 (length (g_nodes g)))
        else s1 in
      let node' := set_nearest node (formatDistance (minDistance s2))
                               (nearestName s2) in
      {| g_nodes := <[i := node']> (g_nodes g);
         g_edges := scan_edges s2;
         g_distanceMatrix :=
           if String.eqb (nearestId s2) "" then g_distanceMatrix g
           else g_distanceMatrix g ++
                [{| fd_facilityId := facilityId node;
                    fd_facilityName := name node;
                    fd_nearestFacilityId := nearestId s2;
                    fd_nearestFacilityName := nearestName s2;
                    distanceKm := formatDistance (minDistance s2);
                    travelTimeMinutes :=
                      estimateTravelTime (minDistance s2) false |}];
         g_edgeSet := edgeSet s2 |}
  end.

Definition buildNetworkGraph (facilities : list CleanedFacility) : Graph :=
  let nodes := omap makeNode facilities in
  let g0 := {| g_nodes := nodes; g_edges := []; g_distanceMatrix := [];
               g_edgeSet := ∅ |} in
  if (length nodes =? 0)%nat then g0 else
  let spatialGrid := SpatialGrid nodes in
  foldl (process_node spatialGrid) g0 (seq 0 (length nodes)).

(** *** identifyHubFacilities *)

(** [m.set(k, (m.get(k) || 0) + 1)]. *)
Definition bump (m : gmap string nat) (k : string) : gmap string nat :=
  <[k := (default 0 (m !! k) + 1)%nat]> m.

Definition connectivity_of (edges : list NetworkEdge) : gmap string nat :=
  foldl (fun m edge => bump (bump m (from edge)) (to edge)) ∅ edges.

Definition hub_rank_score (connectivity : gmap string nat)
    (node : OptimizationNode) : num :=
  nor (default NaN (of_nat <$> connectivity !! facilityId node)) (Fin 1)
  * (qualityScore node / Fin 100).

Definition identifyHubFacilities (nodes : list OptimizationNode)
    (edges : list NetworkEdge) (topN : nat) : list string :=
  let connectivity := connectivity_of edges in
  let scored :=
    (fun node => (facilityId node, hub_rank_score connectivity node))
      <$> nodes in
  fst <$> take topN (Array_sort (fun a b => snd b - snd a) scored).

(** *** getRegionCentroid *)

Definition regionCentroids : list (string * Coordinates) :=
  [ ("Greater Accra", {| lat := Fin 5.6037; lng := Fin (-0.1870) |});
    ("Ashanti", {| lat := Fin 6.6885; lng := Fin (-1.6244) |});
    ("Western", {| lat := Fin 5.0527; lng := Fin (-2.2565) |});
    ("Eastern", {| lat := Fin 6.3333; lng := Fin (-0.5000) |});
    ("Central", {| lat := Fin 5.5000; lng := Fin (-1.0000) |});
    ("Northern", {| lat := Fin 9.5000; lng := Fin (-1.0000) |});
    ("Upper East", {| lat := Fin 10.7833; lng := Fin (-0.8167) |});
    ("Upper West", {| lat := Fin 10.2500; lng := Fin (-2.0833) |});
    ("Volta", {| lat := Fin 6.5781; lng := Fin 0.4502 |});
    ("Brong Ahafo", {| lat := Fin 7.9500; lng := Fin (-1.6750) |});
    ("Bono", {| lat := Fin 7.5000; lng := Fin (-2.5000) |});
    ("Bono East", {| lat := Fin 7.7500; lng := Fin (-1.0000) |});
    ("Ahafo", {| lat := Fin 7.0000; lng := Fin (-2.5000) |});
    ("Savannah", {| lat := Fin 9.0000; lng := Fin (-1.5000) |});
    ("North East", {| lat := Fin 10.5000; lng := Fin (-0.2500) |});
    ("Oti", {| lat := Fin 7.5000; lng := Fin 0.3000 |});
    ("Western North", {| lat := Fin 6.0000; lng := Fin (-2.5000) |}) ].

(** The table is an object literal, so [regionCentroids[k]] also finds
    what every object inherits.  Such a value is truthy and has no
    [lat] or [lng]: both read as [undefined], which is [NaN] in the
    arithmetic that consumes a centroid. *)
Definition Object_prototype_keys : list string :=
  [ "constructor"; "hasOwnProperty"; "isPrototypeOf";
    "propertyIsEnumerable"; "toLocaleString"; "toString"; "valueOf";
    "__proto__"; "__defineGetter__"; "__defineSetter__";
    "__lookupGetter__"; "__lookupSetter__" ].

Fixpoint alist_get {V : Type} (k : string) (l : list (string * V))
    : option V :=
  match l with
  | [] => None
  | (k', v) :: l' => if String.eqb k' k then Some v else alist_get k l'
  end.

Definition regionCentroids_get (k : string) : option Coordinates :=
  match alist_get k regionCentroids with
  | Some c => Some c
  | None =>
      if bool_decide (k ∈ Object_prototype_keys)
      then Some {| lat := NaN; lng := NaN |} else None
  end.

Definition getRegionCentroid (regionName : string) : Coordinates :=
  let normalizedName := trim regionName in
  match regionCentroids_get normalizedName with
  | Some c => c
  | None =>
      let nameLower := toLowerCase normalizedName in
      match list_find (fun kv =>
               includes (toLowerCase (fst kv)) nameLower
               || includes nameLower (toLowerCase (fst kv)) = true)
             regionCentroids with
      | Some (_, (_, coords)) => coords
      | None => {| lat := Fin 7.9465; lng := Fin (-1.0232) |}
      end
  end.

(** *** detectCoverageGaps *)

(** [regionNodeMap]: a [Map] read back in insertion order. *)
Fixpoint alist_set {V : Type} (k : string) (v : V) (l : list (string * V))
    : list (string * V) :=
  match l with
  | [] => [(k, v)]
  | (k', v') :: l' =>
      if String.eqb k' k then (k, v) :: l' else (k', v') :: alist_set k v l'
  end.

Definition group_by_region (nodes : list OptimizationNode)
    : list (string * list OptimizationNode) :=
  foldl (fun m node =>
           let list := default [] (alist_get (region node) m) in
           alist_set (region node) (list ++ [node]) m)
        [] nodes.

(** Nodes of a region: the exact label, else every label that contains
    the name or is contained in it, compared in lower case. *)
Definition region_facilities
    (regionNodeMap : list (string * list OptimizationNode))
    (regionName : string) : list OptimizationNode :=
  let regionFacilities := default [] (alist_get regionName regionNodeMap) in
  if (length regionFacilities =? 0)%nat then
    let regionLower := toLowerCase regionName in
    foldl (fun acc '(key, nodeList) =>
             if includes (toLowerCase key) regionLower
                || includes regionLower (toLowerCase key)
             then acc ++ nodeList else acc)
          regionFacilities regionNodeMap
  else regionFacilities.

(** [avgDistance], [avgTime] and [centroid] of one region. *)
Definition region_access (nodes : list OptimizationNode)
    (regionName : string) (regionFacilities : list OptimizationNode)
    : num * num * Coordinates :=
  if (length regionFacilities =? 0)%nat then
    let centroid := getRegionCentroid regionName in
    let nearestDist :=
      foldl (fun nearestDist node =>
               let dist := haversineDistance (lat centroid) (lng centroid)
                                             (node_lat node) (node_lng node) in
               if dist <? nearestDist then dist else nearestDist)
            PInf nodes in
    let avgDistance :=
      if nearestDist === PInf then Fin 100 else nearestDist in
    (avgDistance, estimateTravelTime avgDistance false, centroid)
  else
    let '(totalMinDistance, validCount) :=
      foldl (fun '(total, count) facility =>
               let dist := nearestFacilityDistance facility in
               if isFinite dist && (dist >? Fin 0)
               then (total + dist, S count) else (total, count))
            (Fin 0, 0%nat) regionFacilities in
    let avgDistance :=
      if (0 <? validCount)%nat then totalMinDistance / of_nat validCount
      else Fin 0 in
    let n := of_nat (length regionFacilities) in
    (avgDistance,
     estimateTravelTime avgDistance (avgDistance <? Fin 20),
     {| lat := foldl (fun s f => s + node_lat f) (Fin 0) regionFacilities / n;
        lng := foldl (fun s f => s + node_lng f) (Fin 0) regionFacilities / n |}).

Definition gap_of_region (nodes : list OptimizationNode)
    (regionNodeMap : list (string * list OptimizationNode))
    (r : RegionStats) : option CoverageGap :=
  let regionFacilities := region_facilities regionNodeMap (rs_name r) in
  let '(avgDistance, avgTime, centroid) :=
    region_access nodes (rs_name r) regionFacilities in
  if avgTime >? WHO_ACCESS_THRESHOLD then
    Some {| regionName := rs_name r;
            centroid := centroid;
            gap_nearestFacilityDistance :=
              Math_round (avgDistance * Fin 10) / Fin 10;
            nearestFacilityTime := Math_round (avgTime * Fin 10) / Fin 10;
            populationEstimate :=
              nor (rs_totalFacilities r) (Fin 1) * Fin 30000 + Fin 50000;
            urgencyScore := Math_min (avgTime / WHO_ACCESS_THRESHOLD) (Fin 1.0);
            recommendedAction :=
              if avgTime >? Fin 180
              then "Deploy mobile health unit immediately"
              else if avgTime >? Fin 120
              then "Establish permanent facility within 2 years"
              else "Enhance existing facility capabilities" |}
  else None.

(** The loop pushes the gaps in the order of [regionStats]. *)
Definition collect_gaps (nodes : list OptimizationNode)
    (regionStats : list RegionStats) : list CoverageGap :=
  omap (gap_of_region nodes (group_by_region nodes)) regionStats.

Definition detectCoverageGaps (nodes : list OptimizationNode)
    (regionStats : list RegionStats) : list CoverageGap :=
  Array_sort (fun a b => urgencyScore b - urgencyScore a)
             (collect_gaps nodes regionStats).

(** *** generateCriticalInsights *)

(** [connectionCounts]: for each edge, both endpoints get a set, and
    each is added to the set of the other. *)
Definition ensure_set (m : gmap string (gset string)) (k : string)
    : gmap string (gset string) :=
  match m !! k with Some _ => m | None => <[k := ∅]> m end.

Definition connect (m : gmap string (gset string)) (edge : NetworkEdge)
    : gmap string (gset string) :=
  let m1 := ensure_set m (from edge) in
  let m2 := ensure_set m1 (to edge) in
  let m3 := alter (fun s => {[to edge]} ∪ s) (from edge) m2 in
  alter (fun s => {[from edge]} ∪ s) (to edge) m3.

Definition connectionCounts (edges : list NetworkEdge)
    : gmap string (gset string) :=
  foldl connect ∅ edges.

(** [connectionCounts.get(id)?.size || 0]. *)
Definition connection_count (counts : gmap string (gset string))
    (id : string) : nat :=
  default 0%nat (size <$> counts !! id).

Record HubScore : Type := {
  hs_node : OptimizationNode;
  uniqueConnections : nat;
  hubScore : num;
  nearestDist : num;
}.

Definition hub_score_of (counts : gmap string (gset string))
    (node : OptimizationNode) : HubScore :=
  let uniqueConnections := connection_count counts (facilityId node) in
  let qualityScore := qualityScore node in
  let nearestDist :=
    if isFinite (nearestFacilityDistance node)
    then nearestFacilityDistance node else Fin 100 in
  let accessibilityFactor :=
    Math_max (Fin 1) (Fin 100 - nearestDist) / Fin 100 in
  {| hs_node := node;
     uniqueConnections := uniqueConnections;
     hubScore := of_nat uniqueConnections * Fin 0.4
                 + qualityScore * Fin 0.4
                 + accessibilityFactor * Fin 20;
     nearestDist := nearestDist |}.

Definition hubScores (nodes : list OptimizationNode)
    (edges : list NetworkEdge) : list HubScore :=
  hub_score_of (connectionCounts edges) <$> nodes.

Definition sortedHubs (nodes : list OptimizationNode)
    (edges : list NetworkEdge) : list HubScore :=
  Array_sort (fun a b => hubScore b - hubScore a) (hubScores nodes edges).

(** The selection loop, from the hubs still to scan, the hubs selected
    so far and the regions used so far. *)
Fixpoint select_hubs (sorted selectedHubs : list HubScore)
    (usedRegions : gset string) : list HubScore :=
  match sorted with
  | [] => selectedHubs
  | hub :: rest =>
      if (5 <=? length selectedHubs)%nat then selectedHubs
      else if (length selectedHubs <? 3)%nat
              && bool_decide (region (hs_node hub) ∈ usedRegions)
      then select_hubs rest selectedHubs usedRegions
      else select_hubs rest (selectedHubs ++ [hub])
                       ({[region (hs_node hub)]} ∪ usedRegions)
  end.

Definition selectedHubs (nodes : list OptimizationNode)
    (edges : list NetworkEdge) : list HubScore :=
  select_hubs (sortedHubs nodes edges) [] ∅.

Definition show (x : num) : string := Number_toString H x.

Definition optimal_location (index : nat) (item : HubScore)
    : OptimalLocation :=
  let node := hs_node item in
  let coverageRadius := Math_round (nearestDist item * Fin 0.6 + Fin 2) in
  let populationBase := Fin 50000 + qualityScore node * Fin 500 in
  let connectionBonus := of_nat (uniqueConnections item) * Fin 8000 in
  let regionBonus :=
    if includes (toLowerCase (region node)) "accra" then Fin 100000
    else if includes (toLowerCase (region node)) "ashanti" then Fin 80000
    else Fin 30000 in
  {| ol_name := name node;
     ol_coordinates := {| lat := node_lat node; lng := node_lng node |};
     currentCoverageRadius := coverageRadius;
     populationServed :=
       Math_round (populationBase + connectionBonus + regionBonus);
     rank := index + 1;
     reason :=
       if (index =? 0)%nat
       then "Best network position: " +:+ show (of_nat (uniqueConnections item))
            +:+ " direct links, quality " +:+ show (qualityScore node)
            +:+ "/100, " +:+ region node
       else region node +:+ ": " +:+ show (of_nat (uniqueConnections item))
            +:+ " connections, quality " +:+ show (qualityScore node)
            +:+ ", coverage " +:+ show coverageRadius +:+ "km" |}.

(** The fresh scan for the facility nearest to a gap. *)
Definition nearest_to (c : Coordinates) (nodes : list OptimizationNode)
    : string * num :=
  foldl (fun '(nearestFacilityName, minDist) node =>
           let dist := haversineDistance (lat c) (lng c)
                                         (node_lat node) (node_lng node) in
           if dist <? minDist then (name node, dist)
           else (nearestFacilityName, minDist))
        ("Nearest Regional Facility", PInf) nodes.

Definition recommended_facility (nodes : list OptimizationNode)
    (gap : CoverageGap) : RecommendedFacility :=
  let '(nearestFacilityName, minDist) := nearest_to (centroid gap) nodes in
  {| suggestedLocation := centroid gap;
     facilityType :=
       if populationEstimate gap >? Fin 100000 then hospital
       else if populationEstimate gap >? Fin 30000 then clinic
       else health_center;
     priority :=
       if urgencyScore gap >=? Fin 0.9 then critical
       else if urgencyScore gap >=? Fin 0.7 then high else medium;
     estimatedPopulationServed := populationEstimate gap;
     nearestExistingFacility := nearestFacilityName;
     distanceFromNearest := Math_round (minDist * Fin 10) / Fin 10;
     justification :=
       regionName gap +:+ ": "
       +:+ show (Math_round (nearestFacilityTime gap))
       +:+ " min access time exceeds WHO 90-min standard. "
       +:+ recommendedAction gap |}.

Definition recommends (gap : CoverageGap) : bool :=
  (urgencyScore gap >=? Fin 0.5)
  && (nearestFacilityTime gap >? WHO_ACCESS_THRESHOLD).

Definition population_center (gap : CoverageGap) : PopulationCenter :=
  {| pc_name := regionName gap;
     pc_coordinates := centroid gap;
     estimatedPopulation := populationEstimate gap;
     pc_nearestFacilityDistance :=
       formatDistance (gap_nearestFacilityDistance gap);
     pc_nearestFacilityName := "Nearest Regional Facility";
     accessTimeMinutes := Math_min (nearestFacilityTime gap) (Fin 2880);
     meetsWHOStandard := nearestFacilityTime gap <=? WHO_ACCESS_THRESHOLD |}.

Definition bottleneck_step (counts : gmap string (gset string))
    (networkBottlenecks : list NetworkBottleneck)
    (node : OptimizationNode) : list NetworkBottleneck :=
  if (5 <=? length networkBottlenecks)%nat then networkBottlenecks else
  let connectionCount := connection_count counts (facilityId node) in
  if (connectionCount <=? 1)%nat && (nearestFacilityDistance node >? Fin 50)
  then networkBottlenecks ++
       [{| location := name node;
           issue := "Isolated facility with " +:+ show (of_nat connectionCount)
                    +:+ " connection(s). Nearest: "
                    +:+ show (nearestFacilityDistance node) +:+ "km";
           severity :=
             if nearestFacilityDistance node >? Fin 100 then critical else high;
           recommendation :=
             "Establish intermediate health post or improve road access" |}]
  else networkBottlenecks.

Definition network_wide (m : OptimizationMetrics)
    (networkBottlenecks : list NetworkBottleneck) : list NetworkBottleneck :=
  if (length networkBottlenecks <? 5)%nat
     && (avgInterFacilityDistance m >? Fin 80)
  then networkBottlenecks ++
       [{| location := "Network-wide";
           issue := "Average inter-facility distance ("
                    +:+ show (avgInterFacilityDistance m)
                    +:+ "km) exceeds optimal range";
           severity :=
             if avgInterFacilityDistance m >? Fin 150 then critical else medium;
           recommendation :=
             "Prioritize mobile health units for remote areas" |}]
  else networkBottlenecks.

Definition count_within (times : list num) : nat :=
  length (filter (fun t => (t <=? WHO_ACCESS_THRESHOLD) = true) times).

Definition generateCriticalInsights (nodes : list OptimizationNode)
    (edges : list NetworkEdge) (coverageGaps : list CoverageGap)
    (m : OptimizationMetrics) : CriticalInsights :=
  let withinWHO := count_within (responseTimeMinutes <$> nodes) in
  let whoComplianceScore :=
    if (0 <? length nodes)%nat
    then Math_round (of_nat withinWHO / of_nat (length nodes) * Fin 100)
    else Fin 0 in
  let counts := connectionCounts edges in
  {| optimalHubLocations := imap optimal_location (selectedHubs nodes edges);
     recommendedNewFacilities :=
       recommended_facility nodes
         <$> take 5 (filter (fun gap => recommends gap = true) coverageGaps);
     underservedPopulationCenters := population_center <$> coverageGaps;
     networkBottlenecks :=
       network_wide m (foldl (bottleneck_step counts) [] nodes);
     whoComplianceScore := whoComplianceScore;
     accessibilityGrade :=
       if whoComplianceScore >=? Fin 90 then GradeA
       else if whoComplianceScore >=? Fin 75 then GradeB
       else if whoComplianceScore >=? Fin 60 then GradeC
       else if whoComplianceScore >=? Fin 40 then GradeD else GradeF |}.

(** *** calculateStatistics *)

Definition normalCDF (x : num) : num :=
  let a1 := Fin 0.254829592 in
  let a2 := Fin (-0.284496736) in
  let a3 := Fin 1.421413741 in
  let a4 := Fin (-1.453152027) in
  let a5 := Fin 1.061405429 in
  let p := Fin 0.3275911 in
  let sign := if x <? Fin 0 then Fin (-1) else Fin 1 in
  let x := Math_abs x * Fin 0.7071067811865476 in
  let t := Fin 1.0 / (Fin 1.0 + p * x) in
  let y := Fin 1.0
           - (((((a5 * t + a4) * t) + a3) * t + a2) * t + a1) * t
             * Math_exp H (nneg x * x) in
  Fin 0.5 * (Fin 1.0 + sign * y).

Definition calculateStatistics (responseTimes : list num)
    : StatisticalAnalysis :=
  let n := length responseTimes in
  if (n =? 0)%nat then
    {| pValue := Fin 1;
       confidenceInterval := (Fin 0, Fin 0);
       effectSize := Fin 0;
       sampleSize := 0;
       standardError := Fin 0;
       significanceLevel := not_significant |}
  else
    let sum := foldl nadd (Fin 0) responseTimes in
    let mean := sum / of_nat n in
    let varianceSum :=
      foldl (fun acc t => let diff := t - mean in acc + diff * diff)
            (Fin 0) responseTimes in
    let variance := varianceSum / (of_nat n - Fin 1) in
    let stdDev := Math_sqrt H variance in
    let standardError := stdDev / Math_sqrt H (of_nat n) in
    let zScore := Fin 1.96 in
    let confidenceInterval :=
      (Math_max (Fin 0) (mean - zScore * standardError),
       mean + zScore * standardError) in
    let effectSize :=
      if stdDev >? Fin 0 then (WHO_ACCESS_THRESHOLD - mean) / stdDev
      else Fin 0 in
    let tStatistic :=
      if standardError >? Fin 0
      then (mean - WHO_ACCESS_THRESHOLD) / standardError else Fin 0 in
    let pValue :=
      if (30 <? n)%nat
      then Math_max (Fin 0.0001)
             (Math_min (Fin 1)
                (Fin 2 * (Fin 1 - normalCDF (Math_abs tStatistic))))
      else Fin 0.05 in
    {| pValue := pValue;
       confidenceInterval := confidenceInterval;
       effectSize := Math_round (effectSize * Fin 100) / Fin 100;
       sampleSize := n;
       standardError := Math_round (standardError * Fin 100) / Fin 100;
       significanceLevel :=
         if pValue <? Fin 0.01 then significant
         else if pValue <? Fin 0.05 then marginal else not_significant |}.

(** *** optimizeNetwork *)

(** [m.set(k, (m.get(k) || []).concat([i]))]. *)
Definition index_edge (m : gmap string (list nat)) (k : string) (i : nat)
    : gmap string (list nat) :=
  <[k := default [] (m !! k) ++ [i]]> m.

Definition nodeEdgeMap (edges : list NetworkEdge) : gmap string (list nat) :=
  foldl (fun m '(i, edge) => index_edge (index_edge m (from edge) i) (to edge) i)
        ∅ (imap pair edges).

(** The response time of a node: the least travel time over its edges,
    else the time of its nearest-facility distance at the rural speed. *)
Definition response_time (edges : list NetworkEdge)
    (edgeMap : gmap string (list nat)) (node : OptimizationNode) : num :=
  match edgeMap !! facilityId node with
  | Some (idx0 :: rest) =>
      foldl (fun minTime idx =>
               match edges !! idx with
               | Some edge =>
                   if travelTime edge <? minTime then travelTime edge
                   else minTime
               | None => minTime
               end)
            PInf (idx0 :: rest)
  | _ => estimateTravelTime (nearestFacilityDistance node) false
  end.

Definition set_responseTime (node : OptimizationNode) (t : num)
    : OptimizationNode :=
  {| facilityId := facilityId node;
     name := name node;
     node_lat := node_lat node;
     node_lng := node_lng node;
     region := region node;
     capabilities := capabilities node;
     qualityScore := qualityScore node;
     responseTimeMinutes := t;
     nearestFacilityDistance := nearestFacilityDistance node;
     nearestFacilityName := nearestFacilityName node |}.

(** The loop that gives each node its response time and pushes the
    same value on [responseTimes]. *)
Definition assign_response_times (edges : list NetworkEdge)
    (edgeMap : gmap string (list nat)) (nodes : list OptimizationNode)
    : list OptimizationNode * list num :=
  foldl (fun '(updated, responseTimes) node =>
           let t := response_time edges edgeMap node in
           (updated ++ [set_responseTime node t], responseTimes ++ [t]))
        ([], []) nodes.

(** [a[i] || 0] for a computed index [i]. *)
Definition at_or_zero (a : list num) (i : num) : num :=
  match index_of i ≫= (a !!.) with
  | Some v => nor v (Fin 0)
  | None => Fin 0
  end.

Definition round1 (x : num) : num := Math_round (x * Fin 10) / Fin 10.

(** The single pass over [responseTimes]: [sum] and [withinThreshold]. *)
Definition tally (responseTimes : list num) : num * nat :=
  foldl (fun '(sum, withinThreshold) t =>
           (sum + t,
            if t <=? WHO_ACCESS_THRESHOLD then S withinThreshold
            else withinThreshold))
        (Fin 0, 0%nat) responseTimes.

Definition averageResponseTime_of (responseTimes : list num) : num :=
  let n := length responseTimes in
  if (0 <? n)%nat then fst (tally responseTimes) / of_nat n else Fin 0.

Definition coveragePercentage_of (responseTimes : list num) : num :=
  let n := length responseTimes in
  if (0 <? n)%nat
  then of_nat (snd (tally responseTimes)) / of_nat n * Fin 100
  else Fin 0.

Definition paretoScore_of (coveragePercentage averageResponseTime : num)
    (gapCount : nat) : num :=
  let timeScore := Math_max (Fin 0) (Fin 100 - averageResponseTime) in
  let equityScore := Fin 100 - of_nat gapCount * Fin 10 in
  Math_round (coveragePercentage * Fin 0.4 + timeScore * Fin 0.4
              + equityScore * Fin 0.2).

Definition compute_metrics (nodes : list OptimizationNode)
    (edges : list NetworkEdge) (distanceMatrix : list FacilityDistance)
    (coverageGaps : list CoverageGap) (responseTimes : list num)
    : OptimizationMetrics :=
  let sortedTimes := Array_sort (fun a b => a - b) responseTimes in
  let n := length responseTimes in
  let averageResponseTime := averageResponseTime_of responseTimes in
  let medianResponseTime :=
    at_or_zero sortedTimes (Math_floor (of_nat n / Fin 2)) in
  let p95ResponseTime :=
    at_or_zero sortedTimes (Math_floor (of_nat n * Fin 0.95)) in
  let coveragePercentage := coveragePercentage_of responseTimes in
  let maxEdges :=
    of_nat (length nodes) * (of_nat (length nodes) - Fin 1) / Fin 2 in
  let networkEfficiency :=
    if maxEdges >? Fin 0 then of_nat (length edges) / maxEdges * Fin 100
    else Fin 0 in
  let distances :=
    filter (fun d => isFinite d && (d <? MAX_DISPLAY_DISTANCE) = true)
           (distanceKm <$> distanceMatrix) in
  let some_distance := (0 <? length distances)%nat in
  {| averageResponseTime := round1 averageResponseTime;
     medianResponseTime := round1 medianResponseTime;
     p95ResponseTime := round1 p95ResponseTime;
     coveragePercentage := round1 coveragePercentage;
     networkEfficiency := round1 networkEfficiency;
     paretoScore :=
       paretoScore_of coveragePercentage averageResponseTime
                      (length coverageGaps);
     totalFacilities := length nodes;
     avgInterFacilityDistance :=
       if some_distance
       then Math_round (sum_list distances / of_nat (length distances))
       else Fin 0;
     maxInterFacilityDistance :=
       if some_distance then Math_round (Math_max_list distances) else Fin 0;
     minInterFacilityDistance :=
       if some_distance then Math_round (Math_min_list distances) else Fin 0 |}.

Definition optimizeNetwork (facilities : list CleanedFacility)
    (regionStats : list RegionStats) : OptimizationResult :=
  let g := buildNetworkGraph facilities in
  let edges := g_edges g in
  let distanceMatrix := g_distanceMatrix g in
  let hubFacilities := identifyHubFacilities (g_nodes g) edges 5 in
  let '(nodes, responseTimes) :=
    assign_response_times edges (nodeEdgeMap edges) (g_nodes g) in
  let coverageGaps := detectCoverageGaps nodes regionStats in
  let metrics :=
    compute_metrics nodes edges distanceMatrix coverageGaps responseTimes in
  {| nodes := nodes;
     edges := edges;
     hubFacilities := hubFacilities;
     coverageGaps := coverageGaps;
     metrics := metrics;
     statisticalAnalysis := calculateStatistics responseTimes;
     criticalInsights :=
       generateCriticalInsights nodes edges coverageGaps metrics;
     facilityDistanceMatrix := distanceMatrix |}.

End Engine.

(* ================================================================== *)
(** ** A reference host *)
(* ================================================================== *)

(** Rational approximations of the host functions, good to about thirty
    decimal places on the arguments the engine produces; they make the
    engine executable on concrete inputs. *)
Module RefHost.

Definition scale : Z := (10 ^ 30)%Z.

(** Round a rational to thirty decimal places. *)
Definition approx (q : Q) : Q :=
  Qred (Qfloor (q * inject_Z scale + (1 # 2)) # Z.to_pos scale)%Q.

(** [sum_{k < fuel} t_k] where [t_{k+1} = t_k * step (k)]. *)
Fixpoint series (fuel : nat) (k : Z) (term acc : Q) (step : Z -> Q) : Q :=
  match fuel with
  | O => acc
  | S fuel' =>
      series fuel' (k + 1)%Z (approx (term * step k)) (approx (acc + term)) step
  end.

Definition sinQ (x : Q) : Q :=
  let x := approx x in
  series 24 0 x 0
    (fun k => - (x * x) / inject_Z ((2 * k + 2) * (2 * k + 3)))%Q.

Definition cosQ (x : Q) : Q :=
  let x := approx x in
  series 24 0 1 0
    (fun k => - (x * x) / inject_Z ((2 * k + 1) * (2 * k + 2)))%Q.

Definition sqrtQ (q : Q) : Q :=
  Qred (Z.sqrt (Qfloor (q * inject_Z (scale * scale))) # Z.to_pos scale)%Q.

Definition piQ : Q := 3.141592653589793238462643383279.

(** Arc tangent on [0, 1]: two halvings of the angle, then the series. *)
Definition atan_small (t : Q) : Q :=
  series 40 0 t 0
    (fun k => - (t * t) * inject_Z (2 * k + 1) / inject_Z (2 * k + 3))%Q.

Definition halve (t : Q) : Q := approx (t / (1 + sqrtQ (1 + t * t)))%Q.

Definition atan01 (t : Q) : Q := (4 * atan_small (halve (halve t)))%Q.

Definition atan_pos (t : Q) : Q :=
  if Qle_bool t 1 then atan01 t else (piQ / 2 - atan01 (/ t))%Q.

(** [atan2] of finite arguments. *)
Definition atan2Q (y x : Q) : Q :=
  match (Qnum x ?= 0)%Z, (Qnum y ?= 0)%Z with
  | Eq, Eq => 0
  | Eq, Gt => piQ / 2
  | Eq, Lt => - (piQ / 2)
  | Gt, Eq => 0
  | Gt, Gt => atan_pos (y / x)
  | Gt, Lt => - atan_pos (- y / x)
  | Lt, Eq => piQ
  | Lt, Gt => piQ - atan_pos (y / - x)
  | Lt, Lt => atan_pos (y / x) - piQ
  end%Q.

(** [exp]: halve the argument until it is small, sum the series and
    square back. *)
Definition exp_small (x : Q) : Q :=
  series 30 0 1 0 (fun k => x / inject_Z (k + 1))%Q.

Fixpoint exp_red (fuel : nat) (x : Q) : Q :=
  match fuel with
  | O => exp_small x
  | S fuel' =>
      if Qle_bool (Qabs x) (1 # 2) then exp_small x
      else let h := exp_red fuel' (x / 2)%Q in approx (h * h)
  end.

Definition sin (x : num) : num :=
  match x with Fin q => Fin (approx (sinQ q)) | _ => NaN end.

Definition cos (x : num) : num :=
  match x with Fin q => Fin (approx (cosQ q)) | _ => NaN end.

Definition sqrt (x : num) : num :=
  match x with
  | NaN | NInf => NaN
  | PInf => PInf
  | Fin q => if Qlt_bool q 0 then NaN else Fin (sqrtQ q)
  end.

Definition atan2 (y x : num) : num :=
  match y, x with
  | NaN, _ | _, NaN => NaN
  | Fin a, Fin b => Fin (approx (atan2Q a b))
  | Fin a, PInf => Fin 0
  | Fin a, NInf => Fin (if Qlt_bool a 0 then - piQ else piQ)%Q
  | PInf, Fin _ => Fin (piQ / 2)%Q
  | NInf, Fin _ => Fin (- (piQ / 2))%Q
  | PInf, PInf => Fin (piQ / 4)%Q
  | PInf, NInf => Fin (3 * piQ / 4)%Q
  | NInf, PInf => Fin (- (piQ / 4))%Q
  | NInf, NInf => Fin (- (3 * piQ / 4))%Q
  end.

Definition exp (x : num) : num :=
  match x with
  | NaN => NaN
  | NInf => Fin 0
  | PInf => PInf
  | Fin q => Fin (approx (exp_red 64 q))
  end.

(** Decimal digits of the fractional part [r] in [0, 1), with the
    trailing zeros dropped. *)
Fixpoint frac_digits (fuel : nat) (r : Q) : string :=
  match fuel with
  | O => ""
  | S fuel' =>
      if Qeq_bool r 0 then "" else
      let d := Qfloor (r * 10) in
      pretty d +:+ frac_digits fuel' (Qred (r * 10 - inject_Z d))
  end%Q.

Definition toString (x : num) : string :=
  match x with
  | NaN => "NaN"
  | PInf => "Infinity"
  | NInf => "-Infinity"
  | Fin q =>
      let a := Qabs q in
      let i := Qfloor a in
      let f := frac_digits 17 (Qred (a - inject_Z i)) in
      (if Qlt_bool q 0 then "-" else "")
      +:+ pretty i +:+ (if String.eqb f "" then "" else "." +:+ f)
  end.

Definition host : Host :=
  {| Math_sin := sin; Math_cos := cos; Math_atan2 := atan2;
     Math_sqrt := sqrt; Math_exp := exp; Number_toString := toString |}.

End RefHost.

(* ================================================================== *)
(** ** Vocabulary of the properties *)
(* ================================================================== *)

(** Every number has exactly one of the four shapes. *)
Definition is_Fin (x : num) : Prop := exists q, x = Fin q.






(** The speed tier of a distance. *)
Definition speed_for (d : num) : num :=
  if d <? Fin 20 then TRAVEL_SPEEDS_urban else TRAVEL_SPEEDS_rural.

(** The travel time that the stored, rounded distance of an edge would
    give. *)
Definition time_of_stored_distance (e : NetworkEdge) : num :=
  round1 (distance e / speed_for (distance e) * Fin 60).

(** What [detectCoverageGaps] pushes for a region when there is no
    node at all. *)
Definition gap_without_nodes (r : RegionStats) : CoverageGap :=
  {| regionName := rs_name r;
     centroid := getRegionCentroid (rs_name r);
     gap_nearestFacilityDistance := Fin 100;
     nearestFacilityTime := Fin 100;
     populationEstimate :=
       nor (rs_totalFacilities r) (Fin 1) * Fin 30000 + Fin 50000;
     urgencyScore := Fin 1.0;
     recommendedAction := "Enhance existing facility capabilities" |}.

(** What of a node the graph loop never changes. *)
Definition place (n : OptimizationNode)
    : string * string * num * num * num * string :=
  (facilityId n, name n, node_lat n, node_lng n, qualityScore n, region n).

(** Deep equality.  Two numbers are the same JavaScript value when they
    are the same special value or equal rationals, however the fraction
    is written. *)
Definition same_number (x y : num) : Prop :=
  match x, y with
  | Fin a, Fin b => (a == b)%Q
  | NaN, NaN | NInf, NInf | PInf, PInf => True
  | _, _ => False
  end.








(** A host whose functions see the value of a number, not the way it is
    written. *)
Class HostFunctional (H : Host) : Prop := {
  sin_value : forall x y, same_number x y -> Math_sin H x = Math_sin H y;
  cos_value : forall x y, same_number x y -> Math_cos H x = Math_cos H y;
  atan2_value : forall y1 y2 x1 x2,
    same_number y1 y2 -> same_number x1 x2 ->
    Math_atan2 H y1 x1 = Math_atan2 H y2 x2;
  sqrt_value : forall x y, same_number x y -> Math_sqrt H x = Math_sqrt H y;
  exp_value : forall x y, same_number x y -> Math_exp H x = Math_exp H y;
  toString_value : forall x y,
    same_number x y -> Number_toString H x = Number_toString H y;
}.

(** The canonical form of a value: every number that comes from the
    input is written in lowest terms. *)
Definition canon (x : num) : num :=
  match x with
  | Fin q => Fin (Qred q)
  | _ => x
  end.











Section Linked.
Variable H : Host.

Definition distance_between (a b : OptimizationNode) : num :=
  haversineDistance H (node_lat a) (node_lng a) (node_lat b) (node_lng b).

(** [e] is the edge that the loop creates for the pair [(a, b)]. *)
Definition edge_between (a b : OptimizationNode) (e : NetworkEdge) : Prop :=
  (distance_between a b <=? MAX_EDGE_DISTANCE) = true
  /\ e = make_edge a b (distance_between a b).

Definition linked (ns : list OptimizationNode) (e : NetworkEdge) : Prop :=
  exists i j a b,
    i <> j /\ ns !! i = Some a /\ ns !! j = Some b /\ edge_between a b e.

(** The invariant of the outer loop, before iteration [k]: the nodes
    are where they were, every edge links two of them, and the nodes
    already visited carry a finite, capped nearest distance. *)
Definition graph_inv (nodes0 : list OptimizationNode) (k : nat)
    (g : Graph) : Prop :=
  place <$> g_nodes g = place <$> nodes0
  /\ Forall (linked nodes0) (g_edges g)
  /\ (forall i n, i < k -> g_nodes g !! i = Some n ->
        exists r, nearestFacilityDistance n = Fin r /\ (r <= 2400)%Q).

End Linked.

(* ================================================================== *)
(** ** Sample inputs *)
(* ================================================================== *)

Definition facility_at (id nm : string) (la lo : Q) (reg : string) (q : Q)
    : CleanedFacility :=
  {| f_id := id; f_name := nm; f_validCoordinates := true;
     f_coordinates := Some {| lat := Fin la; lng := Fin lo |};
     f_address := Some {| stateOrRegion := Some reg |};
     f_capabilities := []; f_dataQualityScore := Some (Fin q) |}.

Definition region_named (nm : string) (facilities : Q) : RegionStats :=
  {| rs_name := nm; rs_totalFacilities := Fin facilities |}.

(** One facility far from every region of the gazetteer. *)
Definition lone_facility : CleanedFacility :=
  facility_at "f0" "Offshore Clinic" 0 0 "Offshore" 50.



(** Two facilities on the equator, 0.0903 degrees of longitude apart:
    about 10.04 km. *)
Definition two_facilities : list CleanedFacility :=
  [ facility_at "f1" "Alpha" 0 0 "Ashanti" 50;
    facility_at "f2" "Beta" 0 0.0903 "Volta" 70 ].


(** A facility far from the gazetteer: the gap of a region without
    facilities stores the distance from its centroid uncapped. *)
Definition remote_facility : CleanedFacility :=
  facility_at "f9" "Remote Post" (-40) 170 "Remote" 50.

(** Three facilities in Ashanti with a high quality score, one in Volta
    and one in Northern with a low one. *)
Definition five_facilities : list CleanedFacility :=
  [ facility_at "a1" "Komfo" 6.69 (-1.62) "Ashanti" 90;
    facility_at "a2" "Manhyia" 6.71 (-1.61) "Ashanti" 90;
    facility_at "a3" "Suntreso" 6.70 (-1.64) "Ashanti" 90;
    facility_at "b1" "Ho" 6.60 0.47 "Volta" 10;
    facility_at "c1" "Tamale" 9.40 (-0.84) "Northern" 10 ].

(* ================================================================== *)
(** ** Facts about numbers *)
(* ================================================================== *)

(** The reference host meets the host specification. *)
#[global] Instance refhost_spec : HostSpec RefHost.host.
Proof.
  split.
  - intros y x. destruct y, x; simpl; split; discriminate.
  - reflexivity.
Qed.

Lemma nleb_Fin (a b : Q) : (Fin a <=? Fin b) = true <-> (a <= b)%Q.
Proof. apply Qle_bool_iff. Qed.

Lemma nltb_Fin (a b : Q) : (Fin a <? Fin b) = true <-> (a < b)%Q.
Proof.
  unfold nltb, Qlt_bool. rewrite negb_true_iff, <- not_true_iff_false.
  rewrite Qle_bool_iff. split; [apply Qnot_le_lt | apply Qlt_not_le].
Qed.

Lemma nltb_Fin_false (a b : Q) : (Fin a <? Fin b) = false <-> (b <= a)%Q.
Proof.
  rewrite <- not_true_iff_false, nltb_Fin.
  split; [apply Qnot_lt_le | apply Qle_not_lt].
Qed.

Lemma Qeq_bool_false (a b : Q) : ~ (a == b)%Q -> Qeq_bool a b = false.
Proof.
  intros Hne. apply not_true_iff_false. intros Heq.
  apply Hne, Qeq_bool_iff, Heq.
Qed.

Lemma ndiv_Fin (a b : Q) :
  ~ (b == 0)%Q -> Fin a / Fin b = Fin (Qred (a / b)).
Proof. intros Hb. unfold ndiv. by rewrite Qeq_bool_false. Qed.

Lemma Qfloor_half (z : Z) : Qfloor (inject_Z z + (1 # 2)) = z.
Proof.
  assert (Hlo : (z <= Qfloor (inject_Z z + (1 # 2)))%Z).
  { rewrite <- (Qfloor_Z z) at 1. apply Qfloor_resp_le. lra. }
  assert (Hhi : (Qfloor (inject_Z z + (1 # 2)) < z + 1)%Z).
  { pose proof (Qfloor_le (inject_Z z + (1 # 2))) as Hle.
    rewrite Zlt_Qlt, inject_Z_plus.
    revert Hle. generalize (inject_Z (Qfloor (inject_Z z + (1 # 2)))).
    generalize (inject_Z z). intros a b Hle.
    apply Qle_lt_trans with (a + (1 # 2))%Q; [exact Hle|].
    apply Qplus_lt_r. reflexivity. }
  lia.
Qed.

(** [Math.round] is monotone, and fixes the integers. *)
Lemma Math_round_mono (a b : Q) :
  (a <= b)%Q -> (Math_round (Fin a) <=? Math_round (Fin b)) = true.
Proof.
  intros Hab. cbn [Math_round]. unfold of_Z. rewrite nleb_Fin, <- Zle_Qle.
  apply Qfloor_resp_le. lra.
Qed.


Lemma isFinite_is_Fin (x : num) : isFinite x = true <-> is_Fin x.
Proof.
  destruct x; simpl; split; try discriminate; try (by intros [? ?]);
    unfold is_Fin; eauto.
Qed.

Lemma Math_min_Fin (a b : Q) :
  Math_min (Fin a) (Fin b) = if Fin b <? Fin a then Fin b else Fin a.
Proof. reflexivity. Qed.

(* ================================================================== *)
(** ** Facts about [Array_sort] *)
(* ================================================================== *)

Section Array_sort_facts.
Context {A : Type} (cmp : A -> A -> num).

Lemma sort_insert_Permutation (x : A) (l : list A) :
  sort_insert cmp x l ≡ₚ x :: l.
Proof.
  induction l as [|y l IH]; simpl; [done|].
  case_match; [|done].
  rewrite IH. apply Permutation_swap.
Qed.


(** A list whose elements never compare as out of order is left as
    it is: the sort is stable. *)
Lemma Array_sort_stable (l : list A) :
  (forall x y, x ∈ l -> y ∈ l -> (cmp x y >? Fin 0) = false) ->
  Array_sort cmp l = l.
Proof.
  induction l as [|x l IH]; intros Hcmp; simpl; [done|].
  rewrite IH by (intros; apply Hcmp; by constructor).
  destruct l as [|y l]; cbn [sort_insert]; [done|].
  rewrite Hcmp; [done| |]; repeat constructor.
Qed.
End Array_sort_facts.

(* ================================================================== *)
(** ** Facts about travel times *)
(* ================================================================== *)

Lemma estimateTravelTime_is_Fin (d : num) (u : bool) :
  is_Fin (estimateTravelTime d u).
Proof.
  unfold estimateTravelTime. destruct d as [| |q|]; simpl isFinite;
    cbn [negb]; try (by eexists).
  unfold MAX_DISPLAY_DISTANCE, MAX_DISPLAY_TIME.
  rewrite Math_min_Fin.
  assert (Hspeed : forall c, is_Fin
    (Math_min (Math_round (Fin c / (if u then TRAVEL_SPEEDS_urban
                                    else TRAVEL_SPEEDS_rural)
                           * Fin 60 * Fin 10) / Fin 10) (Fin 2880))).
  { intros c. destruct u; unfold TRAVEL_SPEEDS_urban, TRAVEL_SPEEDS_rural;
      rewrite ndiv_Fin by (intros Hz; discriminate Hz);
      cbn [nmul Math_round]; unfold of_Z;
      rewrite ndiv_Fin by (intros Hz; discriminate Hz);
      rewrite Math_min_Fin; case_match; by eexists. }
  destruct (Fin 2400 <? Fin q); apply Hspeed.
Qed.

(** A gap is pushed only above the threshold, where the urgency is
    saturated. *)
Lemma urgency_saturated (t : Q) :
  (Fin t >? WHO_ACCESS_THRESHOLD) = true ->
  Math_min (Fin t / WHO_ACCESS_THRESHOLD) (Fin 1.0) = Fin 1.0.
Proof.
  unfold ngtb, WHO_ACCESS_THRESHOLD. rewrite nltb_Fin. intros Ht.
  rewrite ndiv_Fin by (intros Hz; discriminate Hz).
  rewrite Math_min_Fin.
  assert (Hlt : (Fin 1.0 <? Fin (Qred (t / 90))) = true).
  { rewrite nltb_Fin, Qred_correct.
    apply Qlt_shift_div_l; [reflexivity|].
    eapply Qle_lt_trans; [|exact Ht]. by vm_compute. }
  by rewrite Hlt.
Qed.

(* ================================================================== *)
(** ** Coverage gaps *)
(* ================================================================== *)

Section Gaps.
Variable H : Host.

Lemma region_access_time_is_Fin (nodes : list OptimizationNode)
    (regionName : string) (regionFacilities : list OptimizationNode) :
  is_Fin (snd (fst (region_access H nodes regionName regionFacilities))).
Proof.
  unfold region_access. case_match.
  - apply estimateTravelTime_is_Fin.
  - case_match. apply estimateTravelTime_is_Fin.
Qed.

(** Whatever the region, a gap that is pushed has urgency [1.0]. *)
Lemma gap_of_region_urgency (nodes : list OptimizationNode)
    (regionNodeMap : list (string * list OptimizationNode))
    (r : RegionStats) (gap : CoverageGap) :
  gap_of_region H nodes regionNodeMap r = Some gap ->
  urgencyScore gap = Fin 1.0.
Proof.
  unfold gap_of_region.
  pose proof (region_access_time_is_Fin nodes (rs_name r)
                (region_facilities regionNodeMap (rs_name r))) as [t Ht].
  destruct (region_access _ _ _ _) as [[avgDistance avgTime] c].
  simpl in Ht. subst avgTime.
  destruct (Fin t >? WHO_ACCESS_THRESHOLD) eqn:Hgap; [|discriminate].
  intros [= <-]. cbn [urgencyScore]. by apply urgency_saturated.
Qed.

Lemma collect_gaps_urgency (nodes : list OptimizationNode)
    (regionStats : list RegionStats) :
  Forall (fun gap => urgencyScore gap = Fin 1.0)
         (collect_gaps H nodes regionStats).
Proof.
  apply Forall_forall. intros gap Hin. unfold collect_gaps in Hin.
  apply list_elem_of_omap in Hin as (r & _ & Hgap).
  by eapply gap_of_region_urgency.
Qed.

(** With every urgency equal, the comparator of the final sort never
    reports two gaps as out of order. *)
Lemma detectCoverageGaps_keeps_order (nodes : list OptimizationNode)
    (regionStats : list RegionStats) :
  detectCoverageGaps H nodes regionStats = collect_gaps H nodes regionStats.
Proof.
  unfold detectCoverageGaps. apply Array_sort_stable.
  pose proof (collect_gaps_urgency nodes regionStats) as Hall.
  rewrite Forall_forall in Hall.
  intros x y Hx Hy. by rewrite (Hall x Hx), (Hall y Hy).
Qed.

Lemma collect_gaps_no_nodes (regionStats : list RegionStats) :
  collect_gaps H [] regionStats = gap_without_nodes <$> regionStats.
Proof.
  unfold collect_gaps.
  induction regionStats as [|r rs IH]; [done|].
  cbn [omap list_omap fmap list_fmap]. by f_equal.
Qed.
End Gaps.

(** C10.  Every gap that [detectCoverageGaps] emits has urgency exactly
    1.0; hence the final sort by descending urgency returns the gaps in
    the order in which the regions were scanned, and the filter
    [urgencyScore >= 0.5] of the recommended facilities keeps all of
    them. *)
Theorem emitted_gap_urgency_is_one (H : Host)
    (nodes : list OptimizationNode) (regionStats : list RegionStats) :
  let gaps := detectCoverageGaps H nodes regionStats in
  Forall (fun gap => urgencyScore gap = Fin 1.0) gaps
  /\ gaps = omap (gap_of_region H nodes (group_by_region nodes)) regionStats
  /\ filter (fun gap => (urgencyScore gap >=? Fin 0.5) = true) gaps = gaps.
Proof.
  intros gaps. subst gaps. rewrite detectCoverageGaps_keeps_order.
  pose proof (collect_gaps_urgency H nodes regionStats) as Hall.
  split; [exact Hall|]. split; [reflexivity|].
  induction Hall as [|gap gaps Hgap Hall IH]; [done|].
  rewrite filter_cons, Hgap. rewrite decide_True by reflexivity.
  by rewrite IH.
Qed.

(** C6.  With no facility at all the result has no node, no edge and no
    hub, and every region of the region summaries is emitted as a gap,
    in order: its travel time is 100 minutes, above the 90-minute
    standard. *)
Theorem empty_facilities_every_region_is_a_gap (H : Host)
    (regionStats : list RegionStats) :
  let r := optimizeNetwork H [] regionStats in
  nodes r = [] /\ edges r = [] /\ hubFacilities r = []
  /\ coverageGaps r = gap_without_nodes <$> regionStats
  /\ regionName <$> coverageGaps r = rs_name <$> regionStats
  /\ Forall (fun gap => (nearestFacilityTime gap >? WHO_ACCESS_THRESHOLD) = true)
            (coverageGaps r).
Proof.
  intros r.
  assert (Hgaps : coverageGaps r = gap_without_nodes <$> regionStats).
  { subst r. change (coverageGaps (optimizeNetwork H [] regionStats))
      with (detectCoverageGaps H [] regionStats).
    by rewrite detectCoverageGaps_keeps_order, collect_gaps_no_nodes. }
  repeat split; try reflexivity; try exact Hgaps.
  - rewrite Hgaps, <- list_fmap_compose. reflexivity.
  - rewrite Hgaps. apply Forall_fmap, Forall_true. intros s. reflexivity.
Qed.

(* ================================================================== *)
(** ** Response times and metrics *)
(* ================================================================== *)

Lemma assign_response_times_spec (edges : list NetworkEdge)
    (edgeMap : gmap string (list nat)) (nodes : list OptimizationNode) :
  assign_response_times edges edgeMap nodes =
  ((fun node => set_responseTime node (response_time edges edgeMap node))
     <$> nodes,
   response_time edges edgeMap <$> nodes).
Proof.
  unfold assign_response_times.
  enough (Hgen : forall updated times,
    foldl (fun '(updated, responseTimes) node =>
             let t := response_time edges edgeMap node in
             (updated ++ [set_responseTime node t], responseTimes ++ [t]))
          (updated, times) nodes =
    (updated ++ ((fun node => set_responseTime node
                                (response_time edges edgeMap node))
                   <$> nodes),
     times ++ (response_time edges edgeMap <$> nodes))).
  { apply (Hgen [] []). }
  induction nodes as [|node nodes IH]; intros updated times; simpl.
  - by rewrite !app_nil_r.
  - by rewrite IH, <- !app_assoc.
Qed.

(** The array [responseTimes] holds the response times of the nodes of
    the result, in order. *)
Lemma assign_response_times_fields (edges : list NetworkEdge)
    (edgeMap : gmap string (list nat)) (nodes : list OptimizationNode) :
  snd (assign_response_times edges edgeMap nodes) =
  responseTimeMinutes <$> fst (assign_response_times edges edgeMap nodes).
Proof.
  rewrite assign_response_times_spec. cbn [fst snd].
  rewrite <- list_fmap_compose. reflexivity.
Qed.

Lemma assign_response_times_length (edges : list NetworkEdge)
    (edgeMap : gmap string (list nat)) (nodes : list OptimizationNode) :
  length (fst (assign_response_times edges edgeMap nodes)) = length nodes.
Proof. rewrite assign_response_times_spec. apply length_fmap. Qed.



(** The result, with the response-time loop replaced by what it
    computes. *)
Lemma optimizeNetwork_fields (H : Host) (facilities : list CleanedFacility)
    (regionStats : list RegionStats) :
  let r := optimizeNetwork H facilities regionStats in
  let g := buildNetworkGraph H facilities in
  nodes r = fst (assign_response_times (g_edges g) (nodeEdgeMap (g_edges g))
                                       (g_nodes g))
  /\ edges r = g_edges g
  /\ coverageGaps r = detectCoverageGaps H (nodes r) regionStats
  /\ metrics r = compute_metrics (nodes r) (edges r) (g_distanceMatrix g)
                   (coverageGaps r) (responseTimeMinutes <$> nodes r)
  /\ statisticalAnalysis r =
       calculateStatistics H (responseTimeMinutes <$> nodes r)
  /\ criticalInsights r =
       generateCriticalInsights H (nodes r) (edges r) (coverageGaps r)
                                (metrics r).
Proof.
  intros r g. subst r. unfold optimizeNetwork. fold g.
  pose proof (assign_response_times_fields (g_edges g)
                (nodeEdgeMap (g_edges g)) (g_nodes g)) as Hfields.
  destruct (assign_response_times _ _ _) as [nodes' times].
  cbn [fst snd] in Hfields. subst times. cbn. done.
Qed.

(** One-decimal rounding moves a finite number by at most 0.05. *)
Lemma round1_close (q : Q) :
  exists r, round1 (Fin q) = Fin r /\ (Qabs (r - q) <= 1 # 20)%Q.
Proof.
  unfold round1. cbn [nmul Math_round]. unfold of_Z.
  rewrite ndiv_Fin by (intros Hz; discriminate Hz).
  eexists; split; [reflexivity|].
  rewrite Qred_correct.
  pose proof (Qfloor_le (Qred (q * 10) + (1 # 2))) as Hlo.
  pose proof (Qlt_floor (Qred (q * 10) + (1 # 2))) as Hhi.
  rewrite inject_Z_plus in Hhi. change (inject_Z 1) with 1%Q in Hhi.
  pose proof (Qred_correct (q * 10)) as Hy.
  revert Hlo Hhi Hy.
  generalize (inject_Z (Qfloor (Qred (q * 10) + (1 # 2)))).
  generalize (Qred (q * 10)). intros y f Hlo Hhi Hy.
  assert (Hd : (f / 10 == f * (1 # 10))%Q) by (unfold Qdiv; reflexivity).
  rewrite Hd. apply Qabs_case; intros _; lra.
Qed.


(* ================================================================== *)
(** ** Sorting in descending order *)
(* ================================================================== *)

Section Array_sort_sorted.
Context {A : Type} (cmp : A -> A -> num) (P : A -> Prop) (R : relation A).
Hypothesis in_order : forall x y,
  P x -> P y -> (cmp x y >? Fin 0) = false -> R x y.
Hypothesis out_of_order : forall x y,
  P x -> P y -> (cmp x y >? Fin 0) = true -> R y x.



Lemma sort_insert_Forall (x : A) (l : list A) :
  P x -> Forall P l -> Forall P (sort_insert cmp x l).
Proof.
  intros Hx HP.
  by rewrite (sort_insert_Permutation cmp x l), Forall_cons.
Qed.

End Array_sort_sorted.



(* ================================================================== *)
(** ** Hub selection *)
(* ================================================================== *)

Section Select.
Implicit Types (sorted sel : list HubScore) (used : gset string).




End Select.






(** The list [hubFacilities] is another ranking, by
    [identifyHubFacilities]: edge count times quality, with no rule on
    regions.  Its first three entries can share a region where the
    optimal hub locations do not. *)
Lemma hubFacilities_has_no_region_rule :
  let r := optimizeNetwork RefHost.host five_facilities [] in
  hubFacilities r = ["a1"; "a2"; "a3"; "b1"; "c1"]
  /\ ol_name <$> optimalHubLocations (criticalInsights r)
     = ["Komfo"; "Ho"; "Tamale"].
Proof. vm_compute. split; reflexivity. Qed.

(* ================================================================== *)
(** ** The graph builder *)
(* ================================================================== *)

Lemma foldl_seq_invariant {S : Type} (P : nat -> S -> Prop)
    (f : S -> nat -> S) (s0 : S) (n : nat) :
  P 0%nat s0 ->
  (forall k s, k < n -> P k s -> P (Datatypes.S k) (f s k)) ->
  P n (foldl f s0 (seq 0 n)).
Proof.
  intros H0 Hstep. induction n as [|n IH]; [done|].
  rewrite seq_S, foldl_app. cbn [foldl Nat.add].
  apply Hstep; [lia|]. apply IH. intros k s Hk. apply Hstep. lia.
Qed.

(** One-decimal rounding of a number below a tenth of an integer stays
    below it. *)
Lemma round1_bound (q : Q) (z : Z) :
  (q * 10 <= inject_Z z)%Q ->
  exists r, round1 (Fin q) = Fin r /\ (r * 10 <= inject_Z z)%Q.
Proof.
  intros Hq. unfold round1. cbn [nmul Math_round]. unfold of_Z.
  rewrite ndiv_Fin by (intros Hz; discriminate Hz).
  eexists; split; [reflexivity|]. rewrite Qred_correct.
  assert (Hfloor : (Qfloor (Qred (q * 10) + (1 # 2)) <= z)%Z).
  { rewrite <- (Qfloor_half z). apply Qfloor_resp_le.
    rewrite Qred_correct. lra. }
  rewrite Zle_Qle in Hfloor. revert Hfloor.
  generalize (inject_Z (Qfloor (Qred (q * 10) + (1 # 2)))).
  generalize (inject_Z z). intros b f Hf.
  assert (Hd : (f / 10 == f * (1 # 10))%Q) by (unfold Qdiv; reflexivity).
  rewrite Hd. lra.
Qed.

(** [formatDistance] always returns a finite number within the display
    maximum. *)
Lemma formatDistance_capped (d : num) :
  exists r, formatDistance d = Fin r /\ (r <= 2400)%Q.
Proof.
  unfold formatDistance.
  destruct d as [| |q|]; cbn [isFinite negb orb];
    try (exists 2400%Q; split; [reflexivity|discriminate]).
  destruct (Fin q >? MAX_DISPLAY_DISTANCE) eqn:Hbig.
  { exists 2400%Q; split; [reflexivity|discriminate]. }
  apply nltb_Fin_false in Hbig.
  destruct (round1_bound q 24000) as (r & Hr & Hle).
  { change (inject_Z 24000) with 24000%Q. lra. }
  exists r. split; [exact Hr|]. change (inject_Z 24000) with 24000%Q in Hle. lra.
Qed.

Section Graph.
Variable H : Host.

Lemma edge_between_place (a a' b b' : OptimizationNode) (e : NetworkEdge) :
  place a = place a' -> place b = place b' ->
  edge_between H a b e -> edge_between H a' b' e.
Proof.
  unfold place, edge_between, distance_between, make_edge.
  intros [= -> -> -> -> -> _] [= -> -> -> -> -> _]. done.
Qed.

Lemma linked_place (ns ns' : list OptimizationNode) (e : NetworkEdge) :
  place <$> ns = place <$> ns' -> linked H ns e -> linked H ns' e.
Proof.
  intros Hplace (i & j & a & b & Hij & Ha & Hb & He).
  assert (Hlook : forall k n, ns !! k = Some n ->
            exists n', ns' !! k = Some n' /\ place n = place n').
  { intros k n Hn.
    assert (Hk : (place <$> ns') !! k = Some (place n))
      by (by rewrite <- Hplace, list_lookup_fmap, Hn).
    apply list_lookup_fmap_Some in Hk as (n' & Hn' & Heq). eauto. }
  destruct (Hlook i a Ha) as (a' & Ha' & Hpa).
  destruct (Hlook j b Hb) as (b' & Hb' & Hpb).
  exists i, j, a', b'. eauto using edge_between_place.
Qed.

Lemma track_nearest_edges (s : Scan) (d : num) (o : OptimizationNode) :
  scan_edges (track_nearest s d o) = scan_edges s.
Proof. unfold track_nearest. by case_match. Qed.

Lemma scan_nearby_linked (ns : list OptimizationNode) (i : nat)
    (node : OptimizationNode) (s : Scan) (j : nat) :
  ns !! i = Some node ->
  Forall (linked H ns) (scan_edges s) ->
  Forall (linked H ns) (scan_edges (scan_nearby H ns i node s j)).
Proof.
  intros Hnode Hs. unfold scan_nearby.
  destruct (i =? j)%nat eqn:Hij; [done|]. apply Nat.eqb_neq in Hij.
  destruct (ns !! j) as [other|] eqn:Hother; [|done].
  unfold add_edge.
  destruct (_ <=? MAX_EDGE_DISTANCE) eqn:Hnear;
    [|by rewrite track_nearest_edges].
  case_bool_decide; [by rewrite track_nearest_edges|].
  cbn [scan_edges]. rewrite track_nearest_edges.
  apply Forall_app. split; [done|].
  apply Forall_singleton. exists i, j, node, other.
  repeat split; done.
Qed.

Lemma foldl_scan_nearby_linked (ns : list OptimizationNode) (i : nat)
    (node : OptimizationNode) (indices : list nat) (s : Scan) :
  ns !! i = Some node ->
  Forall (linked H ns) (scan_edges s) ->
  Forall (linked H ns)
         (scan_edges (foldl (scan_nearby H ns i node) s indices)).
Proof.
  intros Hnode. revert s.
  induction indices as [|j indices IH]; intros s Hs; cbn [foldl]; [done|].
  by apply IH, scan_nearby_linked.
Qed.

Lemma foldl_scan_all_edges (ns : list OptimizationNode) (i : nat)
    (node : OptimizationNode) (indices : list nat) (s : Scan) :
  scan_edges (foldl (scan_all H ns i node) s indices) = scan_edges s.
Proof.
  revert s. induction indices as [|j indices IH]; intros s; cbn [foldl];
    [done|].
  rewrite IH. unfold scan_all.
  destruct (i =? j)%nat; [done|].
  destruct (ns !! j); [|done]. apply track_nearest_edges.
Qed.

Lemma process_node_inv (grid : gmap cell_key (list nat))
    (nodes0 : list OptimizationNode) (k : nat) (g : Graph) :
  graph_inv H nodes0 k g -> graph_inv H nodes0 (S k) (process_node H grid g k).
Proof.
  intros (Hplace & Hedges & Hnear). unfold process_node.
  destruct (g_nodes g !! k) as [node|] eqn:Hnode.
  2:{ repeat split; [done..|]. intros i n Hi Hn.
      destruct (decide (i = k)) as [->|]; [congruence|].
      apply (Hnear i); [lia|done]. }
  cbv zeta.
  set (s1 := foldl (scan_nearby H (g_nodes g) k node) _ _).
  match goal with
  | |- context [if ?c then ?a else s1] => set (s2 := if c then a else s1)
  end.
  assert (Hs1 : Forall (linked H (g_nodes g)) (scan_edges s1)).
  { apply foldl_scan_nearby_linked; [done|]. cbn [scan_edges].
    eapply Forall_impl; [exact Hedges|].
    intros e. by apply linked_place. }
  assert (Hs2 : scan_edges s2 = scan_edges s1).
  { subst s2. case_match; [|done]. apply foldl_scan_all_edges. }
  repeat split; cbn [g_nodes g_edges].
  - rewrite list_fmap_insert. rewrite <- Hplace.
    apply list_insert_id. by rewrite list_lookup_fmap, Hnode.
  - rewrite Hs2. eapply Forall_impl; [exact Hs1|].
    intros e. by apply linked_place.
  - intros i n Hi Hn.
    destruct (decide (i = k)) as [->|Hne].
    + rewrite list_lookup_insert_eq in Hn
        by (by apply lookup_lt_is_Some; eexists).
      injection Hn as <-. cbn [set_nearest nearestFacilityDistance].
      apply formatDistance_capped.
    + rewrite list_lookup_insert_ne in Hn by done.
      apply (Hnear i); [lia|done].
Qed.

Lemma process_node_length (grid : gmap cell_key (list nat))
    (g : Graph) (k : nat) :
  length (g_nodes (process_node H grid g k)) = length (g_nodes g).
Proof.
  unfold process_node. destruct (g_nodes g !! k); [|done].
  cbn [g_nodes]. apply length_insert.
Qed.

Lemma buildNetworkGraph_inv (facilities : list CleanedFacility) :
  let nodes0 := omap makeNode facilities in
  let g := buildNetworkGraph H facilities in
  graph_inv H nodes0 (length nodes0) g.
Proof.
  intros nodes0 g. subst g. unfold buildNetworkGraph. fold nodes0.
  destruct (length nodes0 =? 0)%nat eqn:Hlen.
  { apply Nat.eqb_eq in Hlen. rewrite Hlen.
    repeat split; cbn [g_nodes g_edges]; [done|]. intros; lia. }
  apply (foldl_seq_invariant
           (fun k g => graph_inv H nodes0 k g)).
  - repeat split; cbn [g_nodes g_edges]; [done|]. intros; lia.
  - intros k g _. apply process_node_inv.
Qed.
End Graph.

(* ================================================================== *)
(** ** Indices stay in range *)
(* ================================================================== *)

(** The engine indexes [nodes] with the indices kept in the grid and
    [edges] with the indices kept per node.  Both are always in range,
    so the branches of the embedding for a missing element are never
    taken. *)
Lemma SpatialGrid_in_range (nodes : list OptimizationNode)
    (key : cell_key) (cell : list nat) :
  SpatialGrid nodes !! key = Some cell ->
  Forall (fun i => i < length nodes) cell.
Proof.
  unfold SpatialGrid. revert key cell.
  induction nodes as [|node nodes IH] using rev_ind; intros key cell.
  { cbn [imap foldl]. by rewrite lookup_empty. }
  rewrite imap_app, foldl_app. cbn [imap foldl].
  rewrite Nat.add_0_r, length_app. cbn [length].
  unfold grid_add at 1.
  set (grid := foldl _ ∅ (imap pair nodes)) in *.
  set (key' := getCellKey (node_lat node) (node_lng node)).
  destruct (decide (key' = key)) as [<-|Hne].
  - rewrite lookup_insert_eq. intros [= <-].
    apply Forall_app. split; [|apply Forall_singleton; lia].
    destruct (grid !! key') as [old|] eqn:Hold; cbn [default]; [|constructor].
    eapply Forall_impl; [by eapply IH|]. intros i Hi. simpl in Hi. lia.
  - rewrite lookup_insert_ne by done. intros Hcell.
    eapply Forall_impl; [by eapply IH|]. intros i Hi. simpl in Hi. lia.
Qed.

Lemma getNearbyIndices_in_range (nodes : list OptimizationNode)
    (lat lng : num) (radiusCells : nat) :
  Forall (fun j => j < length nodes)
         (getNearbyIndices (SpatialGrid nodes) lat lng radiusCells).
Proof.
  unfold getNearbyIndices. cbv zeta.
  apply Forall_bind, Forall_forall. intros dLat _.
  apply Forall_bind, Forall_forall. intros dLng _.
  unfold compose.
  match goal with
  | |- context [SpatialGrid nodes !! ?key] =>
      destruct (SpatialGrid nodes !! key) as [cell|] eqn:Hcell
  end; cbn [default]; [|constructor].
  by eapply SpatialGrid_in_range.
Qed.

Lemma nodeEdgeMap_in_range (edges : list NetworkEdge) (id : string)
    (indices : list nat) :
  nodeEdgeMap edges !! id = Some indices ->
  Forall (fun i => i < length edges) indices.
Proof.
  unfold nodeEdgeMap. revert id indices.
  induction edges as [|edge edges IH] using rev_ind; intros id indices.
  { cbn [imap foldl]. by rewrite lookup_empty. }
  rewrite imap_app, foldl_app. cbn [imap foldl].
  rewrite Nat.add_0_r, length_app. cbn [length].
  set (m := foldl _ ∅ (imap pair edges)) in *.
  assert (Hstep : forall m' k id' l,
    (forall id0 l0, m' !! id0 = Some l0 ->
                    Forall (fun i => i < length edges + 1) l0) ->
    index_edge m' k (length edges) !! id' = Some l ->
    Forall (fun i => i < length edges + 1) l).
  { intros m' k id' l Hm'. unfold index_edge.
    destruct (decide (k = id')) as [<-|Hne].
    - rewrite lookup_insert_eq. intros [= <-].
      apply Forall_app. split; [|apply Forall_singleton; lia].
      destruct (m' !! k) as [old|] eqn:Hold; cbn [default]; [|constructor].
      by eapply Hm'.
    - rewrite lookup_insert_ne by done. apply Hm'. }
  apply Hstep. intros id0 l0. apply Hstep. intros id1 l1 Hl1.
  eapply Forall_impl; [by eapply IH|]. intros i Hi. simpl in Hi. lia.
Qed.

(* ================================================================== *)
(** ** Edges *)
(* ================================================================== *)

Section Edges.
Context (H : Host) `{!HostSpec H}.

Lemma haversineDistance_not_infinite (lat1 lng1 lat2 lng2 : num) :
  haversineDistance H lat1 lng1 lat2 lng2 = NaN
  \/ is_Fin (haversineDistance H lat1 lng1 lat2 lng2).
Proof.
  unfold haversineDistance. cbv zeta.
  match goal with
  | |- context [Math_atan2 H ?y ?x] =>
      destruct (atan2_not_infinite (H:=H) y x) as [Hp Hn];
      destruct (Math_atan2 H y x) as [| |q|]
  end; try done.
  - by left.
  - right. by eexists.
Qed.

Lemma travel_minutes_bounded (q : Q) (u : bool) :
  (q <= 300)%Q ->
  exists x,
    Fin q / (if u then TRAVEL_SPEEDS_urban else TRAVEL_SPEEDS_rural) * Fin 60
    = Fin x /\ (x <= 600)%Q.
Proof.
  intros Hq.
  destruct u; unfold TRAVEL_SPEEDS_urban, TRAVEL_SPEEDS_rural;
    rewrite ndiv_Fin by (intros Hz; discriminate Hz); cbn [nmul];
    (eexists; split; [reflexivity|]); rewrite !Qred_correct.
  - assert (Hd : (q / 30 == q * (1 # 30))%Q) by (unfold Qdiv; reflexivity).
    rewrite Hd. lra.
  - assert (Hd : (q / 60 == q * (1 # 60))%Q) by (unfold Qdiv; reflexivity).
    rewrite Hd. lra.
Qed.

(** Within the edge threshold the caps of [estimateTravelTime] and of
    [formatDistance] do not bite. *)
Lemma estimateTravelTime_near (q : Q) (u : bool) :
  (q <= 300)%Q ->
  estimateTravelTime (Fin q) u =
  round1 (Fin q / (if u then TRAVEL_SPEEDS_urban else TRAVEL_SPEEDS_rural)
          * Fin 60).
Proof.
  intros Hq. unfold estimateTravelTime. cbn [isFinite negb].
  assert (Hcap : Math_min (Fin q) MAX_DISPLAY_DISTANCE = Fin q).
  { unfold MAX_DISPLAY_DISTANCE. rewrite Math_min_Fin.
    assert (Hlt : (Fin 2400 <? Fin q) = false)
      by (apply nltb_Fin_false; lra).
    by rewrite Hlt. }
  rewrite Hcap.
  destruct (travel_minutes_bounded q u Hq) as (x & Hx & Hle).
  fold (round1 (Fin q / (if u then TRAVEL_SPEEDS_urban
                         else TRAVEL_SPEEDS_rural) * Fin 60)).
  rewrite Hx.
  destruct (round1_close x) as (r & Hr & Hclose).
  rewrite Hr. unfold MAX_DISPLAY_TIME. rewrite Math_min_Fin.
  assert (Hlt : (Fin 2880 <? Fin r) = false).
  { apply nltb_Fin_false. apply Qabs_Qle_condition in Hclose. lra. }
  by rewrite Hlt.
Qed.

Lemma formatDistance_near (q : Q) :
  (q <= 300)%Q ->
  formatDistance (Fin q) = round1 (Fin q)
  /\ (round1 (Fin q) <=? MAX_EDGE_DISTANCE) = true.
Proof.
  intros Hq. unfold formatDistance. cbn [isFinite negb orb].
  assert (Hbig : (Fin q >? MAX_DISPLAY_DISTANCE) = false)
    by (apply nltb_Fin_false; lra).
  rewrite Hbig. split; [reflexivity|].
  destruct (round1_bound q 3000) as (r & Hr & Hle).
  { change (inject_Z 3000) with 3000%Q. lra. }
  rewrite Hr. apply nleb_Fin.
  change (inject_Z 3000) with 3000%Q in Hle. lra.
Qed.

Lemma edge_between_facts (a b : OptimizationNode) (e : NetworkEdge) :
  edge_between H a b e ->
  let d := distance_between H a b in
  (distance e <=? MAX_EDGE_DISTANCE) = true
  /\ from e = facilityId a /\ to e = facilityId b
  /\ (d <=? MAX_EDGE_DISTANCE) = true
  /\ distance e = round1 d
  /\ travelTime e = round1 (d / speed_for d * Fin 60).
Proof.
  intros [Hnear ->]. cbv zeta.
  cbn [make_edge distance from to travelTime].
  unfold speed_for. revert Hnear.
  destruct (haversineDistance_not_infinite (node_lat a) (node_lng a)
              (node_lat b) (node_lng b)) as [Hnan | [q Hq]];
    fold (distance_between H a b) in *.
  { rewrite Hnan. discriminate. }
  rewrite Hq. intros Hnear. pose proof Hnear as Hle.
  apply nleb_Fin in Hle.
  destruct (formatDistance_near q Hle) as [Hfmt Hcap].
  rewrite Hfmt, estimateTravelTime_near by done.
  done.
Qed.
End Edges.

Lemma place_set_responseTime (n : OptimizationNode) (t : num) :
  place (set_responseTime n t) = place n.
Proof. reflexivity. Qed.

Lemma optimizeNetwork_places (H : Host) (facilities : list CleanedFacility)
    (regionStats : list RegionStats) :
  place <$> nodes (optimizeNetwork H facilities regionStats)
  = place <$> omap makeNode facilities.
Proof.
  destruct (optimizeNetwork_fields H facilities regionStats) as (-> & _).
  rewrite assign_response_times_spec. cbn [fst].
  rewrite <- list_fmap_compose.
  destruct (buildNetworkGraph_inv H facilities) as (<- & _).
  apply list_fmap_ext. intros i n _. apply place_set_responseTime.
Qed.




(** C2, as the code has it.  Every edge of the result joins two nodes
    whose great-circle distance [d] is at most 300 km; the edge stores
    [d] rounded to one decimal, which is at most 300 as well, and its
    travel time is [d / speed * 60] rounded to one decimal, for the
    unrounded [d], at the urban speed exactly when [d < 20]. *)
Theorem edge_distance_and_travel_time (H : Host) (HS : HostSpec H)
    (facilities : list CleanedFacility) (regionStats : list RegionStats) :
  let r := optimizeNetwork H facilities regionStats in
  Forall (fun e =>
            (distance e <=? MAX_EDGE_DISTANCE) = true
            /\ exists a b,
                 a ∈ nodes r /\ b ∈ nodes r
                 /\ from e = facilityId a /\ to e = facilityId b
                 /\ let d := distance_between H a b in
                    (d <=? MAX_EDGE_DISTANCE) = true
                    /\ distance e = round1 d
                    /\ travelTime e = round1 (d / speed_for d * Fin 60))
         (edges r).
Proof.
  intros r.
  destruct (optimizeNetwork_fields H facilities regionStats)
    as (_ & Hedges & _).
  fold r in Hedges. rewrite Hedges.
  destruct (buildNetworkGraph_inv H facilities) as (_ & Hlinked & _).
  eapply Forall_impl; [exact Hlinked|].
  intros e Hlink.
  apply (linked_place H _ (nodes r)) in Hlink;
    [|symmetry; apply optimizeNetwork_places].
  destruct Hlink as (i & j & a & b & _ & Ha & Hb & He).
  destruct (edge_between_facts H a b e He) as (Hle & Hfrom & Hto & Hd & Hdist & Htime).
  split; [exact Hle|]. exists a, b.
  repeat split; try done; by eapply list_elem_of_lookup_2.
Qed.

Lemma edge_distance_and_travel_time_witness :
  let r := optimizeNetwork RefHost.host two_facilities [] in
  Forall (fun e =>
            (distance e <=? MAX_EDGE_DISTANCE) = true
            /\ exists a b,
                 a ∈ nodes r /\ b ∈ nodes r
                 /\ from e = facilityId a /\ to e = facilityId b
                 /\ let d := distance_between RefHost.host a b in
                    (d <=? MAX_EDGE_DISTANCE) = true
                    /\ distance e = round1 d
                    /\ travelTime e = round1 (d / speed_for d * Fin 60))
         (edges r).
Proof.
  exact (edge_distance_and_travel_time RefHost.host refhost_spec
           two_facilities []).
Defined.

(** C2, as the specification words it, fails: the two facilities are
    10.04 km apart, the edge stores 10 km and a travel time of 20.1
    minutes, and 10 km at the urban speed are 20 minutes. *)
Lemma travel_time_is_not_that_of_stored_distance :
  exists e,
    edges (optimizeNetwork RefHost.host two_facilities []) = [e]
    /\ distance e = Fin 10
    /\ travelTime e = Fin 20.1
    /\ time_of_stored_distance e = Fin 20
    /\ travelTime e <> time_of_stored_distance e.
Proof.
  eexists. split; [vm_compute; reflexivity|].
  repeat split; try (vm_compute; reflexivity).
  vm_compute. discriminate.
Qed.

(* ================================================================== *)
(** ** Hub scores *)
(* ================================================================== *)









(* ================================================================== *)
(** ** Distances that escape the caps *)
(* ================================================================== *)

(** C3.  With no facility and at least one region summary, the first
    recommended facility reports an infinite distance to the nearest
    existing facility: the scan of [generateCriticalInsights] starts
    from [Infinity] and, unlike the same scan in [detectCoverageGaps],
    does not replace it when there is no node. *)
Theorem no_facility_gives_infinite_recommendation_distance (H : Host)
    (region : RegionStats) (regionStats : list RegionStats) :
  let r := optimizeNetwork H [] (region :: regionStats) in
  exists recommended others,
    recommendedNewFacilities (criticalInsights r) = recommended :: others
    /\ distanceFromNearest recommended = PInf
    /\ isFinite (distanceFromNearest recommended) = false.
Proof.
  intros r.
  destruct (optimizeNetwork_fields H [] (region :: regionStats))
    as (_ & _ & Hgaps & _ & _ & Hinsights).
  fold r in Hgaps, Hinsights.
  change (nodes r) with (@nil OptimizationNode) in *.
  rewrite detectCoverageGaps_keeps_order, collect_gaps_no_nodes in Hgaps.
  rewrite Hinsights, Hgaps.
  cbn [generateCriticalInsights recommendedNewFacilities fmap list_fmap].
  rewrite filter_cons.
  rewrite decide_True by reflexivity.
  cbn [take fmap list_fmap]. eexists _, _. split; [reflexivity|].
  split; reflexivity.
Qed.

Lemma gap_distance_can_exceed_display_maximum :
  let r := optimizeNetwork RefHost.host [remote_facility]
                           [region_named "Oti" 0] in
  exists gap,
    coverageGaps r = [gap]
    /\ (gap_nearestFacilityDistance gap >? MAX_DISPLAY_DISTANCE) = true.
Proof. eexists. split; vm_compute; reflexivity. Qed.

(* ================================================================== *)
(** ** Statistics *)
(* ================================================================== *)

Lemma Qnum_zero (q : Q) : (q == 0)%Q -> Qnum q = 0%Z.
Proof. unfold Qeq. simpl. lia. Qed.

(** The sample variance of a single value is 0/0. *)
Lemma variance_of_single_sample (t : num) :
  let mean := foldl nadd (Fin 0) [t] / of_nat 1 in
  foldl (fun acc x => let diff := x - mean in acc + diff * diff) (Fin 0) [t]
  / (of_nat 1 - Fin 1) = NaN.
Proof.
  destruct t as [| |q|]; try reflexivity.
  cbv zeta. cbn [foldl]. change (of_nat 1 - Fin 1) with (Fin 0).
  change (of_nat 1) with (Fin 1). cbn [nadd].
  rewrite ndiv_Fin by (intros Hz; discriminate Hz).
  cbn [nadd nsub nneg nmul].
  unfold ndiv. change (Qeq_bool 0 0) with true. cbn iota.
  cbn [sgn]. rewrite Qnum_zero; [reflexivity|].
  rewrite !Qred_correct. field.
Qed.

(** C8.  A sample with a single value has no sample variance: the
    division by [n - 1] is 0/0, and the standard error that
    [calculateStatistics] returns is [NaN].  So it is for the result of
    [optimizeNetwork] on any input with exactly one node. *)
Theorem single_sample_standard_error_is_NaN (H : Host) (HS : HostSpec H) :
  (forall t, standardError (calculateStatistics H [t]) = NaN)
  /\ (forall facilities regionStats,
        let r := optimizeNetwork H facilities regionStats in
        length (nodes r) = 1%nat ->
        standardError (statisticalAnalysis r) = NaN).
Proof.
  assert (Hsingle : forall t, standardError (calculateStatistics H [t]) = NaN).
  { intros t. unfold calculateStatistics.
    change (length [t]) with 1%nat. cbn [Nat.eqb]. cbv zeta.
    cbn [standardError].
    pose proof (variance_of_single_sample t) as Hvar. cbv zeta in Hvar.
    rewrite Hvar, sqrt_NaN. reflexivity. }
  split; [exact Hsingle|].
  intros facilities regionStats r Hlen.
  destruct (optimizeNetwork_fields H facilities regionStats)
    as (_ & _ & _ & _ & Hstats & _).
  fold r in Hstats. rewrite Hstats.
  destruct (nodes r) as [|node [|]]; try discriminate Hlen.
  apply Hsingle.
Qed.

Lemma single_sample_witness :
  standardError
    (statisticalAnalysis (optimizeNetwork RefHost.host [lone_facility] []))
  = NaN.
Proof.
  apply (single_sample_standard_error_is_NaN RefHost.host refhost_spec).
  vm_compute. reflexivity.
Defined.

(** Forty response times of exactly 90 minutes: the guards on a zero
    standard deviation hold, and both values are 0. *)
Lemma forty_identical_times :
  let s := calculateStatistics RefHost.host (replicate 40 (Fin 90)) in
  standardError s = Fin 0 /\ effectSize s = Fin 0 /\ sampleSize s = 40%nat.
Proof. vm_compute. repeat split; reflexivity. Qed.

(* ================================================================== *)
(** ** Determinism *)
(* ================================================================== *)

Lemma same_number_refl (x : num) : same_number x x.
Proof. destruct x; simpl; done. Qed.

Lemma same_number_sym (x y : num) : same_number x y -> same_number y x.
Proof. destruct x, y; simpl; done. Qed.

Lemma same_number_canon (x : num) : same_number (canon x) x.
Proof. destruct x; simpl; try done. apply Qred_correct. Qed.


Lemma Qnum_sgn (p q : Q) : (p == q)%Q -> Z.sgn (Qnum p) = Z.sgn (Qnum q).
Proof.
  destruct p as [a b], q as [c d]. unfold Qeq. simpl.
  destruct a, c; simpl; intros Heq; try done; try lia.
Qed.

(** The arithmetic and the comparisons see the value of a number, not
    the way it is written. *)
Section Values.
Variables (x x' y y' : num).
Hypotheses (Hx : same_number x x') (Hy : same_number y y').

Lemma sgn_value : sgn x = sgn x'.
Proof using Hx.
  destruct x, x'; cbn [same_number] in *; simpl; try done. by apply Qnum_sgn.
Qed.

Lemma nneg_value : nneg x = nneg x'.
Proof using Hx.
  destruct x, x'; cbn [same_number] in *; simpl; try done.
  f_equal. apply Qred_complete. by rewrite Hx.
Qed.

Lemma nadd_value : x + y = x' + y'.
Proof using Hx Hy.
  destruct x, x', y, y'; cbn [same_number] in *; simpl; try done.
  f_equal. apply Qred_complete. by rewrite Hx, Hy.
Qed.

Lemma nmul_value : x * y = x' * y'.
Proof using Hx Hy.
  unfold nmul.
  destruct x as [| |a|], x' as [| |a'|]; try done;
    destruct y as [| |b|], y' as [| |b'|]; try done; cbn [same_number] in *; simpl;
    try (f_equal; apply Qred_complete; by rewrite Hx, Hy);
    try (by rewrite (Qnum_sgn _ _ Hx)); try (by rewrite (Qnum_sgn _ _ Hy)).
Qed.

Lemma Qeq_bool_value (a a' b : Q) : (a == a')%Q -> Qeq_bool a b = Qeq_bool a' b.
Proof.
  intros Ha. destruct (Qeq_bool a b) eqn:H1, (Qeq_bool a' b) eqn:H2; try done.
  - apply Qeq_bool_iff in H1. rewrite Ha in H1.
    apply Qeq_bool_iff in H1. congruence.
  - apply Qeq_bool_iff in H2. rewrite <- Ha in H2.
    apply Qeq_bool_iff in H2. congruence.
Qed.

Lemma ndiv_value : x / y = x' / y'.
Proof using Hx Hy.
  unfold ndiv.
  destruct x as [| |a|], x' as [| |a'|]; try done;
    destruct y as [| |b|], y' as [| |b'|]; try done; cbn [same_number] in *; simpl;
    rewrite ?(Qeq_bool_value b b' 0 Hy);
    try (case_match; [done|]);
    try (case_match; [by rewrite (Qnum_sgn _ _ Hx)|]);
    try (f_equal; apply Qred_complete; by rewrite Hx, Hy);
    try (by rewrite (Qnum_sgn _ _ Hy)).
Qed.

Lemma Qle_bool_value (a a' b b' : Q) :
  (a == a')%Q -> (b == b')%Q -> Qle_bool a b = Qle_bool a' b'.
Proof.
  intros Ha Hb.
  destruct (Qle_bool a b) eqn:H1, (Qle_bool a' b') eqn:H2; try done.
  - apply Qle_bool_iff in H1. rewrite Ha, Hb in H1.
    apply Qle_bool_iff in H1. congruence.
  - apply Qle_bool_iff in H2. rewrite <- Ha, <- Hb in H2.
    apply Qle_bool_iff in H2. congruence.
Qed.

Lemma nleb_value : (x <=? y) = (x' <=? y').
Proof using Hx Hy.
  destruct x, x', y, y'; cbn [same_number] in *; simpl; try done. by apply Qle_bool_value.
Qed.

Lemma nltb_value : (x <? y) = (x' <? y').
Proof using Hx Hy.
  destruct x, x', y, y'; cbn [same_number] in *; simpl; try done.
  unfold Qlt_bool. f_equal. by apply Qle_bool_value.
Qed.

Lemma neqb_value : (x === y) = (x' === y').
Proof using Hx Hy.
  destruct x as [| |a|], x' as [| |a'|], y as [| |b|], y' as [| |b'|];
    cbn [same_number] in *; simpl; try done.
  destruct (Qeq_bool a b) eqn:H1, (Qeq_bool a' b') eqn:H2; try done.
  - apply Qeq_bool_iff in H1. rewrite Hx, Hy in H1.
    apply Qeq_bool_iff in H1. congruence.
  - apply Qeq_bool_iff in H2. rewrite <- Hx, <- Hy in H2.
    apply Qeq_bool_iff in H2. congruence.
Qed.

Lemma isFinite_value : isFinite x = isFinite x'.
Proof using Hx. destruct x, x'; cbn [same_number] in *; simpl; done. Qed.

Lemma truthy_value : truthy x = truthy x'.
Proof using Hx.
  destruct x, x'; cbn [same_number] in *; simpl; try done. f_equal. by apply Qeq_bool_value.
Qed.

Lemma Math_round_value : Math_round x = Math_round x'.
Proof using Hx.
  destruct x, x'; cbn [same_number Math_round] in *; try done.
  unfold of_Z. do 2 f_equal. apply Qfloor_comp. by rewrite Hx.
Qed.

Lemma Math_floor_value : Math_floor x = Math_floor x'.
Proof using Hx.
  destruct x, x'; cbn [same_number Math_floor] in *; try done.
  unfold of_Z. do 2 f_equal. by apply Qfloor_comp.
Qed.

End Values.

Lemma Math_min_value (x x' y y' : num) :
  same_number x x' -> same_number y y' ->
  same_number (Math_min x y) (Math_min x' y').
Proof.
  intros Hx Hy. unfold Math_min.
  pose proof (nltb_value y y' x x' Hy Hx) as Hlt.
  destruct x, x', y, y'; cbn [same_number] in Hx, Hy; try done;
    rewrite Hlt; case_match; done.
Qed.

Lemma Math_max_value (x x' y y' : num) :
  same_number x x' -> same_number y y' ->
  same_number (Math_max x y) (Math_max x' y').
Proof.
  intros Hx Hy. unfold Math_max.
  pose proof (nltb_value x x' y y' Hx Hy) as Hlt.
  destruct x, x', y, y'; cbn [same_number] in Hx, Hy; try done;
    rewrite Hlt; case_match; done.
Qed.

Lemma eq_same_number (x y : num) : x = y -> same_number x y.
Proof. intros ->. apply same_number_refl. Qed.

Lemma canon_same_number_l (x : num) : same_number (canon x) x.
Proof. apply same_number_canon. Qed.

Lemma canon_same_number_r (x : num) : same_number x (canon x).
Proof. apply same_number_sym, same_number_canon. Qed.

Lemma if_value {A : Type} (b b' : bool) (x x' y y' : A) :
  b = b' -> x = x' -> y = y' ->
  (if b then x else y) = (if b' then x' else y').
Proof. by intros -> -> ->. Qed.

Lemma nsub_value (x x' y y' : num) :
  same_number x x' -> same_number y y' -> x - y = x' - y'.
Proof.
  intros Hx Hy. unfold nsub. apply nadd_value; [done|].
  apply eq_same_number. by apply nneg_value.
Qed.

Lemma ngtb_value (x x' y y' : num) :
  same_number x x' -> same_number y y' -> (x >? y) = (x' >? y').
Proof. intros Hx Hy. by apply nltb_value. Qed.

Lemma ngeb_value (x x' y y' : num) :
  same_number x x' -> same_number y y' -> (x >=? y) = (x' >=? y').
Proof. intros Hx Hy. by apply nleb_value. Qed.

(** Descend through an expression down to the numbers that differ only
    in the way they are written. *)
Ltac value_step :=
  match goal with
  | |- ?x = ?x => reflexivity
  | |- same_number ?x ?x => apply same_number_refl
  | |- same_number (canon ?x) ?x => apply canon_same_number_l
  | |- same_number ?x (canon ?x) => apply canon_same_number_r
  | H : same_number ?x ?y |- same_number ?x ?y => exact H
  | |- same_number (Math_min _ _) (Math_min _ _) => apply Math_min_value
  | |- same_number (Math_max _ _) (Math_max _ _) => apply Math_max_value
  | |- same_number _ _ => apply eq_same_number
  | |- nadd _ _ = nadd _ _ => apply nadd_value
  | |- nsub _ _ = nsub _ _ => apply nsub_value
  | |- nmul _ _ = nmul _ _ => apply nmul_value
  | |- ndiv _ _ = ndiv _ _ => apply ndiv_value
  | |- nneg _ = nneg _ => apply nneg_value
  | |- nltb _ _ = nltb _ _ => apply nltb_value
  | |- nleb _ _ = nleb _ _ => apply nleb_value
  | |- ngtb _ _ = ngtb _ _ => apply ngtb_value
  | |- ngeb _ _ = ngeb _ _ => apply ngeb_value
  | |- neqb _ _ = neqb _ _ => apply neqb_value
  | |- isFinite _ = isFinite _ => apply isFinite_value
  | |- truthy _ = truthy _ => apply truthy_value
  | |- Math_round _ = Math_round _ => apply Math_round_value
  | |- Math_floor _ = Math_floor _ => apply Math_floor_value
  | |- Math_sin _ _ = Math_sin _ _ => apply sin_value
  | |- Math_cos _ _ = Math_cos _ _ => apply cos_value
  | |- Math_sqrt _ _ = Math_sqrt _ _ => apply sqrt_value
  | |- Math_exp _ _ = Math_exp _ _ => apply exp_value
  | |- Math_atan2 _ _ _ = Math_atan2 _ _ _ => apply atan2_value
  | |- Number_toString _ _ = Number_toString _ _ => apply toString_value
  | |- Math_min _ _ = Math_min _ _ => f_equal
  | |- Math_max _ _ = Math_max _ _ => f_equal
  | |- (if _ then _ else _) = (if _ then _ else _) => apply if_value
  | |- negb _ = negb _ => f_equal
  | |- andb _ _ = andb _ _ => f_equal
  | |- orb _ _ = orb _ _ => f_equal
  | |- String.append _ _ = String.append _ _ => f_equal
  | |- (_, _) = (_, _) => f_equal
  | |- Some _ = Some _ => f_equal
  end.

Ltac values := repeat value_step.

Section HostValues.
Context (H : Host) `{!HostFunctional H}.


End HostValues.


Lemma formatDistance_value (d d' : num) :
  same_number d d' -> formatDistance d = formatDistance d'.
Proof. intros Hd. unfold formatDistance. values. Qed.

Lemma estimateTravelTime_value (d d' : num) (u : bool) :
  same_number d d' -> estimateTravelTime d u = estimateTravelTime d' u.
Proof. intros Hd. unfold estimateTravelTime. cbv zeta. values. Qed.







Section GraphValues.
Context (H : Host) `{!HostFunctional H}.







End GraphValues.







Section GapValues.
Context (H : Host) `{!HostFunctional H}.



End GapValues.






Section InsightValues.
Context (H : Host) `{!HostFunctional H}.






End InsightValues.

(** The reference host computes on the value of a number. *)
Lemma approx_value (p q : Q) : (p == q)%Q -> RefHost.approx p = RefHost.approx q.
Proof.
  intros Hpq. unfold RefHost.approx. apply Qred_complete.
  unfold Qeq. cbn [Qnum Qden]. f_equal.
  apply Qfloor_comp. by rewrite Hpq.
Qed.

Lemma series_value (fuel : nat) (k : Z) (term term' acc acc' : Q)
    (step step' : Z -> Q) :
  (term == term')%Q -> (acc == acc')%Q -> (forall i, step i == step' i)%Q ->
  (RefHost.series fuel k term acc step
   == RefHost.series fuel k term' acc' step')%Q.
Proof.
  revert k term term' acc acc'.
  induction fuel as [|fuel IH]; intros k term term' acc acc' Ht Ha Hs; [done|].
  cbn [RefHost.series].
  rewrite (approx_value (term * step k) (term' * step' k))
    by (by rewrite Ht, Hs).
  rewrite (approx_value (acc + term) (acc' + term')) by (by rewrite Ht, Ha).
  by apply IH.
Qed.

Lemma sqrtQ_value (p q : Q) : (p == q)%Q -> RefHost.sqrtQ p = RefHost.sqrtQ q.
Proof.
  intros Hpq. unfold RefHost.sqrtQ.
  by rewrite (Qfloor_comp (p * inject_Z (RefHost.scale * RefHost.scale))
                (q * inject_Z (RefHost.scale * RefHost.scale)))
    by (by rewrite Hpq).
Qed.

Lemma halve_value (p q : Q) : (p == q)%Q -> RefHost.halve p = RefHost.halve q.
Proof.
  intros Hpq. unfold RefHost.halve.
  rewrite (sqrtQ_value (1 + p * p) (1 + q * q)) by (by rewrite Hpq).
  apply approx_value. by rewrite Hpq.
Qed.

Lemma atan_pos_value (p q : Q) :
  (p == q)%Q -> RefHost.atan_pos p = RefHost.atan_pos q.
Proof.
  intros Hpq. unfold RefHost.atan_pos, RefHost.atan01.
  rewrite (Qle_bool_value p q 1 1) by done.
  rewrite (halve_value p q) by done.
  rewrite (halve_value (/ p) (/ q)) by (by rewrite Hpq).
  reflexivity.
Qed.

Lemma Qnum_compare_value (p q : Q) :
  (p == q)%Q -> (Qnum p ?= 0)%Z = (Qnum q ?= 0)%Z.
Proof.
  intros Hpq. apply Qnum_sgn in Hpq.
  destruct (Qnum p), (Qnum q); done.
Qed.

Lemma atan2Q_value (a a' b b' : Q) :
  (a == a')%Q -> (b == b')%Q -> RefHost.atan2Q a b = RefHost.atan2Q a' b'.
Proof.
  intros Ha Hb. unfold RefHost.atan2Q.
  rewrite (Qnum_compare_value a a' Ha), (Qnum_compare_value b b' Hb).
  rewrite (atan_pos_value (a / b) (a' / b')) by (by rewrite Ha, Hb).
  rewrite (atan_pos_value (- a / b) (- a' / b')) by (by rewrite Ha, Hb).
  rewrite (atan_pos_value (a / - b) (a' / - b')) by (by rewrite Ha, Hb).
  reflexivity.
Qed.

Lemma sinQ_value (p q : Q) : (p == q)%Q -> RefHost.sinQ p = RefHost.sinQ q.
Proof. intros Hpq. unfold RefHost.sinQ. by rewrite (approx_value p q). Qed.

Lemma cosQ_value (p q : Q) : (p == q)%Q -> RefHost.cosQ p = RefHost.cosQ q.
Proof. intros Hpq. unfold RefHost.cosQ. by rewrite (approx_value p q). Qed.

Lemma exp_red_value (fuel : nat) (p q : Q) :
  (p == q)%Q -> (RefHost.exp_red fuel p == RefHost.exp_red fuel q)%Q.
Proof.
  assert (Hsmall : forall p q : Q,
             (p == q)%Q -> (RefHost.exp_small p == RefHost.exp_small q)%Q).
  { intros p' q' Hpq. unfold RefHost.exp_small.
    apply series_value; [done..|]. intros i. by rewrite Hpq. }
  revert p q. induction fuel as [|fuel IH]; intros p q Hpq;
    cbn [RefHost.exp_red]; [by apply Hsmall|].
  rewrite (Qle_bool_value (Qabs p) (Qabs q) (1 # 2) (1 # 2))
    by (by rewrite ?Hpq).
  destruct (Qle_bool (Qabs q) (1 # 2)); [by apply Hsmall|].
  cbv zeta.
  rewrite (approx_value (RefHost.exp_red fuel (p / 2) * RefHost.exp_red fuel (p / 2))
             (RefHost.exp_red fuel (q / 2) * RefHost.exp_red fuel (q / 2))); [done|].
  assert (Hh : (RefHost.exp_red fuel (p / 2) == RefHost.exp_red fuel (q / 2))%Q)
    by (apply IH; by rewrite Hpq).
  by rewrite Hh.
Qed.

Lemma Qlt_bool_value (a a' b b' : Q) :
  (a == a')%Q -> (b == b')%Q -> Qlt_bool a b = Qlt_bool a' b'.
Proof.
  intros Ha Hb. unfold Qlt_bool. f_equal. by apply Qle_bool_value.
Qed.

Lemma toString_Fin_value (p q : Q) :
  (p == q)%Q -> RefHost.toString (Fin p) = RefHost.toString (Fin q).
Proof.
  intros Hpq. cbn [RefHost.toString]. cbv zeta.
  rewrite (Qlt_bool_value p q 0 0) by done.
  assert (Hfloor : Qfloor (Qabs p) = Qfloor (Qabs q))
    by (apply Qfloor_comp; by rewrite Hpq).
  rewrite Hfloor.
  rewrite (Qred_complete (Qabs p - inject_Z (Qfloor (Qabs q)))
             (Qabs q - inject_Z (Qfloor (Qabs q)))) by (by rewrite Hpq).
  reflexivity.
Qed.

#[global] Instance refhost_functional : HostFunctional RefHost.host.
Proof.
  split; cbn [RefHost.host Math_sin Math_cos Math_atan2 Math_sqrt Math_exp
              Number_toString].
  - intros [| |p|] [| |q|]; cbn [same_number]; try done. intros Hpq.
    cbn [RefHost.sin]. by rewrite (sinQ_value p q).
  - intros [| |p|] [| |q|]; cbn [same_number]; try done. intros Hpq.
    cbn [RefHost.cos]. by rewrite (cosQ_value p q).
  - intros [| |a|] [| |a'|] [| |b|] [| |b'|]; cbn [same_number]; try done;
      intros Ha Hb; cbn [RefHost.atan2].
    + by rewrite (Qlt_bool_value a a' 0 0).
    + by rewrite (atan2Q_value a a' b b').
  - intros [| |p|] [| |q|]; cbn [same_number]; try done. intros Hpq.
    cbn [RefHost.sqrt].
    by rewrite (Qlt_bool_value p q 0 0), (sqrtQ_value p q).
  - intros [| |p|] [| |q|]; cbn [same_number]; try done. intros Hpq.
    cbn [RefHost.exp]. f_equal. apply approx_value. by apply exp_red_value.
  - intros [| |p|] [| |q|]; cbn [same_number]; try done.
    apply toString_Fin_value.
Qed.










